(** * EngagePerfect caption wizard: the wizard context and the media upload step

    A shallow embedding of [WizardContext.jsx] (the [WizardProvider] state
    machine) and of [UploadMediaStep.jsx] (the in-browser media editor), with
    the properties of the wizard specification stated over them.

    Conventions of the embedding:
    - a React state cell is a record field; an event handler is a function from
      the state of the render it closes over to the next state (handlers run to
      completion, one per event);
    - JS objects used as maps ([formData], [completedSteps]) are [gmap string _]
      holding their own properties; a read of [completedSteps] by key also
      sees the members inherited from [Object.prototype];
    - integral JS numbers (step indices, degrees) are [Z], with [%] as [Z.rem];
      the coordinates the browser reports (pointer, bounding rectangle) and
      the text position are rationals [Q];
    - the crop arithmetic runs on IEEE 754 binary64 numbers, Rocq's primitive
      floats, and a canvas dimension is the integer the browser coerces the
      assigned number to;
    - browser object URLs are modelled by an explicit store of live handles. *)

From Stdlib Require Import ZArith QArith Qminmax Qabs.
From Stdlib Require Floats.
From stdpp Require Import base gmap strings list fin_maps.

Local Open Scope Z_scope.

(** ** JavaScript numbers *)

Module Number.

Import Floats.

(** An integer as a number: itself up to 2^53 in magnitude, the nearest
    number beyond. *)
Definition of_Z (z : Z) : float := SF2Prim (binary_normalize prec emax z 0 false).

(** A rational as a number: the quotient of its numerator and denominator in
    lowest terms. This is the number a decimal literal such as [0.05]
    denotes, and it gives back every normal number the browser reports. *)
Definition of_Q (q : Q) : float :=
  (of_Z (Qnum (Qred q)) / of_Z (Zpos (Qden (Qred q))))%float.

(** [Math.min(x, y)]: [NaN] if either argument is, and [-0] below [+0]. *)
Definition Math_min (x y : float) : float :=
  if is_nan x || is_nan y then nan
  else if (x <? y)%float then x
  else if (y <? x)%float then y
  else if get_sign x then x else y.

(** [Math.max(x, y)]: [NaN] if either argument is, and [+0] above [-0]. *)
Definition Math_max (x y : float) : float :=
  if is_nan x || is_nan y then nan
  else if (x <? y)%float then y
  else if (y <? x)%float then x
  else if get_sign x then y else x.

(** The value of a finite number, as a rational. *)
Definition value (x : float) : Q :=
  match Prim2SF x with
  | S754_finite sign m e =>
      let magnitude := (inject_Z (Z.pos m) * 2 ^ e)%Q in
      if sign then (- magnitude)%Q else magnitude
  | _ => 0%Q
  end.

(** The integer part of a number; 0 for [NaN] and the infinities. *)
Definition integer_part (x : float) : Z :=
  match Prim2SF x with
  | S754_finite sign m e =>
      let magnitude := if (0 <=? e)%Z then Z.pos m * 2 ^ e else Z.pos m / 2 ^ (- e) in
      if sign then - magnitude else magnitude
  | _ => 0
  end.

(** What [canvas.width] (default 300) or [canvas.height] (default 150) holds
    after a number is assigned to it: the number converted to [unsigned long]
    (integer part, modulo 2^32), replaced by the default above 2^31 - 1. *)
Definition canvas_dimension (default : Z) (x : float) : Z :=
  let n := integer_part x mod 2 ^ 32 in
  if n <=? 2147483647 then n else default.

End Number.

(** ** Values stored in the shared form data *)

Record point := Point { px : Q; py : Q }.

(** A corner of the crop rectangle, [{x, y}] in fractions of the container. *)
Record corner := Corner { cx : PrimFloat.float; cy : PrimFloat.float }.

(** A browser [File]: only the fields the code reads. *)
Record File := { file_type : string; file_size : Z }.

(** What [canvas.toDataURL(mime)] encodes: the canvas size in pixels, the
    source offset the image was drawn from (the source size is the canvas
    size), and the mime type. *)
Record raster := {
  raster_width : Z;
  raster_height : Z;
  raster_sx : PrimFloat.float;
  raster_sy : PrimFloat.float;
  raster_mime : string
}.

(** URL strings held in [mediaUrl] and [cropPreview]: a handle allocated by
    [URL.createObjectURL], or a self-contained [data:] URL. *)
Inductive url :=
  | ObjectURL (handle : nat)
  | DataURL (r : raster).

Inductive value :=
  | VNull
  | VBool (b : bool)
  | VInt (n : Z)
  | VNum (q : Q)
  | VStr (s : string)
  | VUrl (u : url)
  | VFile (f : File)
  | VPoint (p : point)
  | VStrs (l : list string).

(** JS truthiness of a stored value; an absent key reads [undefined]. *)
Definition truthy (v : value) : bool :=
  match v with
  | VNull => false
  | VBool b => b
  | VInt n => negb (n =? 0)
  | VNum q => negb (Qeq_bool q 0)
  | VStr s => negb (String.eqb s "")
  | VUrl _ | VFile _ | VPoint _ | VStrs _ => true
  end.

Definition truthy_field (fd : gmap string value) (k : string) : bool :=
  match fd !! k with
  | Some v => truthy v
  | None => false
  end.

(** The result of running code that may throw. *)
Inductive outcome (A : Type) :=
  | Returned (a : A)
  | Thrown (msg : string).
Arguments Returned {A} a.
Arguments Thrown {A} msg.

(** ** WizardContext.jsx *)

Module WizardContext.

(** A step descriptor [{id, label, component}]; the component is a render
    capability and carries no state. *)
Record StepDescriptor := { id : string; label : string }.

Record WizardState := {
  currentStep : Z;
  formData : gmap string value;
  completedSteps : gmap string bool
}.

(** The derived part of the context value handed to consumers, next to the
    cells themselves. *)
Record ContextValue := {
  state : WizardState;
  value_totalSteps : Z;
  value_isFirstStep : bool;
  value_isLastStep : bool;
  value_currentStepId : option string
}.

(** [useWizard]: the hook throws outside a provider. *)
Definition useWizard (context : option ContextValue) : outcome ContextValue :=
  match context with
  | None => Thrown "useWizard must be used within a WizardProvider"
  | Some c => Returned c
  end.

(** [steps[i]]: [undefined] out of range. *)
Definition nth_step (steps : list StepDescriptor) (i : Z) : option StepDescriptor :=
  if i <? 0 then None else steps !! Z.to_nat i.

(** [steps[i]?.id] *)
Definition step_id (steps : list StepDescriptor) (i : Z) : option string :=
  id <$> nth_step steps i.

(** A value used as a property key; [undefined] becomes the key "undefined". *)
Definition property_key (o : option string) : string := default "undefined" o.

(** [Object.keys(o).length] *)
Definition keys_length (o : gmap string bool) : Z := Z.of_nat (size o).

(** The property names every plain object inherits from [Object.prototype].
    Each reads as a function, or for ["__proto__"] as the prototype object:
    a truthy value. *)
Definition Object_prototype : list string :=
  ["constructor"; "__defineGetter__"; "__defineSetter__"; "hasOwnProperty";
   "__lookupGetter__"; "__lookupSetter__"; "isPrototypeOf";
   "propertyIsEnumerable"; "toString"; "valueOf"; "__proto__"; "toLocaleString"].

(** [!!o[key]] on a plain object of booleans: the own property when there is
    one, the inherited member otherwise, [undefined] when there is neither. *)
Definition get_truthy (o : gmap string bool) (key : string) : bool :=
  match o !! key with
  | Some b => b
  | None => bool_decide (key ∈ Object_prototype)
  end.

Section Provider.

Variable steps : list StepDescriptor.

Definition totalSteps : Z := Z.of_nat (length steps).

(** The three [useState] initialisers of [WizardProvider]. *)
Definition initialState (initialData : gmap string value) : WizardState :=
  {| currentStep := 0; formData := initialData; completedSteps := ∅ |}.

Definition isFirstStep (s : WizardState) : bool := currentStep s =? 0.
Definition isLastStep (s : WizardState) : bool := currentStep s =? totalSteps - 1.
Definition currentStepId (s : WizardState) : option string := step_id steps (currentStep s).

(** One render of the provider: the context value derived from the cells. *)
Definition contextValue (s : WizardState) : ContextValue :=
  {| state := s;
     value_totalSteps := totalSteps;
     value_isFirstStep := isFirstStep s;
     value_isLastStep := isLastStep s;
     value_currentStepId := currentStepId s |}.

(** Mounting the provider: the first render. [steps.length] and
    [steps[currentStep]?.id] are defined for every step array, empty or not,
    and the body has no [throw]. *)
Definition WizardProvider (initialData : gmap string value) : outcome ContextValue :=
  Returned (contextValue (initialState initialData)).

Definition goToNextStep (s : WizardState) : WizardState :=
  if currentStep s <? totalSteps - 1 then
    {| currentStep := currentStep s + 1;
       formData := formData s;
       completedSteps := <[property_key (currentStepId s) := true]> (completedSteps s) |}
  else s.

Definition goToPrevStep (s : WizardState) : WizardState :=
  if currentStep s >? 0 then
    {| currentStep := currentStep s - 1;
       formData := formData s;
       completedSteps := completedSteps s |}
  else s.

Definition goToStep (stepIndex : Z) (s : WizardState) : WizardState :=
  let isCompletedStep := keys_length (completedSteps s) >=? stepIndex in
  let isNextAvailableStep := stepIndex =? keys_length (completedSteps s) in
  if (stepIndex >=? 0) && (stepIndex <? totalSteps)
     && (isCompletedStep || isNextAvailableStep)
  then {| currentStep := stepIndex;
          formData := formData s;
          completedSteps := completedSteps s |}
  else s.

(** [{...prev, ...newData}]: the keys of [newData] win. *)
Definition updateFormData (newData : gmap string value) (s : WizardState) : WizardState :=
  {| currentStep := currentStep s;
     formData := newData ∪ formData s;
     completedSteps := completedSteps s |}.

(** [!!completedSteps[steps[stepIndex]?.id]] *)
Definition isStepCompleted (s : WizardState) (stepIndex : Z) : bool :=
  get_truthy (completedSteps s) (property_key (step_id steps stepIndex)).

Definition resetWizard (newInitialData : gmap string value) (s : WizardState) : WizardState :=
  {| currentStep := 0; formData := newInitialData; completedSteps := ∅ |}.

(** The operations the context value exposes to its consumers. *)
Inductive action :=
  | GoToNextStep
  | GoToPrevStep
  | GoToStep (stepIndex : Z)
  | UpdateFormData (newData : gmap string value)
  | ResetWizard (newInitialData : gmap string value).

Definition perform (a : action) (s : WizardState) : WizardState :=
  match a with
  | GoToNextStep => goToNextStep s
  | GoToPrevStep => goToPrevStep s
  | GoToStep k => goToStep k s
  | UpdateFormData d => updateFormData d s
  | ResetWizard d => resetWizard d s
  end.

Definition run (acts : list action) (s : WizardState) : WizardState :=
  fold_left (fun st a => perform a st) acts s.

(** States of a wizard mounted with [initialData]. *)
Inductive reachable (initialData : gmap string value) : WizardState → Prop :=
  | reachable_mount : reachable initialData (initialState initialData)
  | reachable_perform a s :
      reachable initialData s → reachable initialData (perform a s).

End Provider.

End WizardContext.

(** ** UploadMediaStep.jsx *)

Module UploadMediaStep.

Import WizardContext.

(** [st |> f]: apply the setters of a handler in the order they are written. *)
Local Notation "st |> f" := (f st) (at level 45, left associativity, only parsing).

(** *** The browser as the component sees it *)

(** [getBoundingClientRect()] of the media container. *)
Record rect := { rect_left : Q; rect_top : Q; rect_width : Q; rect_height : Q }.

(** The rendered [<img>]: its intrinsic pixel size. *)
Record image := { naturalWidth : Z; naturalHeight : Z }.

(** A mouse event. *)
Record mouse := { clientX : Q; clientY : Q }.

(** What the refs point at when an event fires. [imageRef.current] is [null]
    while no [<img ref={imageRef}>] is rendered. *)
Record dom := { mediaContainerRef : rect; imageRef : option image }.

(** The object URLs the document keeps alive: [createObjectURL] adds a fresh
    handle, [revokeObjectURL] removes it. *)
Record url_store := { live : gset nat; next_handle : nat }.

Definition createObjectURL (s : url_store) : url * url_store :=
  (ObjectURL (next_handle s),
   {| live := {[next_handle s]} ∪ live s; next_handle := S (next_handle s) |}).

(** Revoking anything that is not a live object URL does nothing. *)
Definition revokeObjectURL (v : value) (s : url_store) : url_store :=
  match v with
  | VUrl (ObjectURL h) => {| live := live s ∖ {[h]}; next_handle := next_handle s |}
  | _ => s
  end.

(** [dragStartPos]: [{mouseX, mouseY, textX, textY}] *)
Record drag_origin := { mouseX : Q; mouseY : Q; textX : Q; textY : Q }.

(** *** Component state: the [useState] cells, the wizard context, the URL store *)

Record State := mkState {
  isDragging : bool;
  error : string;
  cameraError : string;
  showEditor : bool;
  filter : string;
  rotation : Z;
  cropStart : option corner;
  cropEnd : option corner;
  isCropping : bool;
  cropPreview : option url;
  isAddingText : bool;
  textOverlay : string;
  textPosition : point;
  editHistory : list string;
  currentEdit : Z;
  isDraggingText : bool;
  dragStartPos : drag_origin;
  showEmojiPicker : bool;
  textRotation : Q;
  isRotatingText : bool;
  wizard : WizardState;
  objectURLs : url_store
}.

Definition setIsDragging (v : bool) (st : State) : State :=
  mkState v (error st) (cameraError st) (showEditor st) (filter st)
    (rotation st) (cropStart st) (cropEnd st) (isCropping st) (cropPreview st)
    (isAddingText st) (textOverlay st) (textPosition st) (editHistory st)
    (currentEdit st) (isDraggingText st) (dragStartPos st)
    (showEmojiPicker st) (textRotation st) (isRotatingText st) (wizard st)
    (objectURLs st).

Definition setError (v : string) (st : State) : State :=
  mkState (isDragging st) v (cameraError st) (showEditor st) (filter st)
    (rotation st) (cropStart st) (cropEnd st) (isCropping st) (cropPreview st)
    (isAddingText st) (textOverlay st) (textPosition st) (editHistory st)
    (currentEdit st) (isDraggingText st) (dragStartPos st)
    (showEmojiPicker st) (textRotation st) (isRotatingText st) (wizard st)
    (objectURLs st).

Definition setCameraError (v : string) (st : State) : State :=
  mkState (isDragging st) (error st) v (showEditor st) (filter st)
    (rotation st) (cropStart st) (cropEnd st) (isCropping st) (cropPreview st)
    (isAddingText st) (textOverlay st) (textPosition st) (editHistory st)
    (currentEdit st) (isDraggingText st) (dragStartPos st)
    (showEmojiPicker st) (textRotation st) (isRotatingText st) (wizard st)
    (objectURLs st).

Definition setShowEditor (v : bool) (st : State) : State :=
  mkState (isDragging st) (error st) (cameraError st) v (filter st)
    (rotation st) (cropStart st) (cropEnd st) (isCropping st) (cropPreview st)
    (isAddingText st) (textOverlay st) (textPosition st) (editHistory st)
    (currentEdit st) (isDraggingText st) (dragStartPos st)
    (showEmojiPicker st) (textRotation st) (isRotatingText st) (wizard st)
    (objectURLs st).

Definition setFilter (v : string) (st : State) : State :=
  mkState (isDragging st) (error st) (cameraError st) (showEditor st) v
    (rotation st) (cropStart st) (cropEnd st) (isCropping st) (cropPreview st)
    (isAddingText st) (textOverlay st) (textPosition st) (editHistory st)
    (currentEdit st) (isDraggingText st) (dragStartPos st)
    (showEmojiPicker st) (textRotation st) (isRotatingText st) (wizard st)
    (objectURLs st).

Definition setRotation (v : Z) (st : State) : State :=
  mkState (isDragging st) (error st) (cameraError st) (showEditor st)
    (filter st) v (cropStart st) (cropEnd st) (isCropping st) (cropPreview st)
    (isAddingText st) (textOverlay st) (textPosition st) (editHistory st)
    (currentEdit st) (isDraggingText st) (dragStartPos st)
    (showEmojiPicker st) (textRotation st) (isRotatingText st) (wizard st)
    (objectURLs st).

Definition setCropStart (v : option corner) (st : State) : State :=
  mkState (isDragging st) (error st) (cameraError st) (showEditor st)
    (filter st) (rotation st) v (cropEnd st) (isCropping st) (cropPreview st)
    (isAddingText st) (textOverlay st) (textPosition st) (editHistory st)
    (currentEdit st) (isDraggingText st) (dragStartPos st)
    (showEmojiPicker st) (textRotation st) (isRotatingText st) (wizard st)
    (objectURLs st).

Definition setCropEnd (v : option corner) (st : State) : State :=
  mkState (isDragging st) (error st) (cameraError st) (showEditor st)
    (filter st) (rotation st) (cropStart st) v (isCropping st)
    (cropPreview st) (isAddingText st) (textOverlay st) (textPosition st)
    (editHistory st) (currentEdit st) (isDraggingText st) (dragStartPos st)
    (showEmojiPicker st) (textRotation st) (isRotatingText st) (wizard st)
    (objectURLs st).

Definition setIsCropping (v : bool) (st : State) : State :=
  mkState (isDragging st) (error st) (cameraError st) (showEditor st)
    (filter st) (rotation st) (cropStart st) (cropEnd st) v (cropPreview st)
    (isAddingText st) (textOverlay st) (textPosition st) (editHistory st)
    (currentEdit st) (isDraggingText st) (dragStartPos st)
    (showEmojiPicker st) (textRotation st) (isRotatingText st) (wizard st)
    (objectURLs st).

Definition setCropPreview (v : option url) (st : State) : State :=
  mkState (isDragging st) (error st) (cameraError st) (showEditor st)
    (filter st) (rotation st) (cropStart st) (cropEnd st) (isCropping st) v
    (isAddingText st) (textOverlay st) (textPosition st) (editHistory st)
    (currentEdit st) (isDraggingText st) (dragStartPos st)
    (showEmojiPicker st) (textRotation st) (isRotatingText st) (wizard st)
    (objectURLs st).

Definition setIsAddingText (v : bool) (st : State) : State :=
  mkState (isDragging st) (error st) (cameraError st) (showEditor st)
    (filter st) (rotation st) (cropStart st) (cropEnd st) (isCropping st)
    (cropPreview st) v (textOverlay st) (textPosition st) (editHistory st)
    (currentEdit st) (isDraggingText st) (dragStartPos st)
    (showEmojiPicker st) (textRotation st) (isRotatingText st) (wizard st)
    (objectURLs st).

Definition setTextOverlay (v : string) (st : State) : State :=
  mkState (isDragging st) (error st) (cameraError st) (showEditor st)
    (filter st) (rotation st) (cropStart st) (cropEnd st) (isCropping st)
    (cropPreview st) (isAddingText st) v (textPosition st) (editHistory st)
    (currentEdit st) (isDraggingText st) (dragStartPos st)
    (showEmojiPicker st) (textRotation st) (isRotatingText st) (wizard st)
    (objectURLs st).

Definition setTextPosition (v : point) (st : State) : State :=
  mkState (isDragging st) (error st) (cameraError st) (showEditor st)
    (filter st) (rotation st) (cropStart st) (cropEnd st) (isCropping st)
    (cropPreview st) (isAddingText st) (textOverlay st) v (editHistory st)
    (currentEdit st) (isDraggingText st) (dragStartPos st)
    (showEmojiPicker st) (textRotation st) (isRotatingText st) (wizard st)
    (objectURLs st).

Definition setEditHistory (v : list string) (st : State) : State :=
  mkState (isDragging st) (error st) (cameraError st) (showEditor st)
    (filter st) (rotation st) (cropStart st) (cropEnd st) (isCropping st)
    (cropPreview st) (isAddingText st) (textOverlay st) (textPosition st) v
    (currentEdit st) (isDraggingText st) (dragStartPos st)
    (showEmojiPicker st) (textRotation st) (isRotatingText st) (wizard st)
    (objectURLs st).

Definition setCurrentEdit (v : Z) (st : State) : State :=
  mkState (isDragging st) (error st) (cameraError st) (showEditor st)
    (filter st) (rotation st) (cropStart st) (cropEnd st) (isCropping st)
    (cropPreview st) (isAddingText st) (textOverlay st) (textPosition st)
    (editHistory st) v (isDraggingText st) (dragStartPos st)
    (showEmojiPicker st) (textRotation st) (isRotatingText st) (wizard st)
    (objectURLs st).

Definition setIsDraggingText (v : bool) (st : State) : State :=
  mkState (isDragging st) (error st) (cameraError st) (showEditor st)
    (filter st) (rotation st) (cropStart st) (cropEnd st) (isCropping st)
    (cropPreview st) (isAddingText st) (textOverlay st) (textPosition st)
    (editHistory st) (currentEdit st) v (dragStartPos st) (showEmojiPicker st)
    (textRotation st) (isRotatingText st) (wizard st) (objectURLs st).

Definition setDragStartPos (v : drag_origin) (st : State) : State :=
  mkState (isDragging st) (error st) (cameraError st) (showEditor st)
    (filter st) (rotation st) (cropStart st) (cropEnd st) (isCropping st)
    (cropPreview st) (isAddingText st) (textOverlay st) (textPosition st)
    (editHistory st) (currentEdit st) (isDraggingText st) v
    (showEmojiPicker st) (textRotation st) (isRotatingText st) (wizard st)
    (objectURLs st).

Definition setShowEmojiPicker (v : bool) (st : State) : State :=
  mkState (isDragging st) (error st) (cameraError st) (showEditor st)
    (filter st) (rotation st) (cropStart st) (cropEnd st) (isCropping st)
    (cropPreview st) (isAddingText st) (textOverlay st) (textPosition st)
    (editHistory st) (currentEdit st) (isDraggingText st) (dragStartPos st) v
    (textRotation st) (isRotatingText st) (wizard st) (objectURLs st).

Definition setTextRotation (v : Q) (st : State) : State :=
  mkState (isDragging st) (error st) (cameraError st) (showEditor st)
    (filter st) (rotation st) (cropStart st) (cropEnd st) (isCropping st)
    (cropPreview st) (isAddingText st) (textOverlay st) (textPosition st)
    (editHistory st) (currentEdit st) (isDraggingText st) (dragStartPos st)
    (showEmojiPicker st) v (isRotatingText st) (wizard st) (objectURLs st).

Definition setIsRotatingText (v : bool) (st : State) : State :=
  mkState (isDragging st) (error st) (cameraError st) (showEditor st)
    (filter st) (rotation st) (cropStart st) (cropEnd st) (isCropping st)
    (cropPreview st) (isAddingText st) (textOverlay st) (textPosition st)
    (editHistory st) (currentEdit st) (isDraggingText st) (dragStartPos st)
    (showEmojiPicker st) (textRotation st) v (wizard st) (objectURLs st).

Definition setWizard (v : WizardState) (st : State) : State :=
  mkState (isDragging st) (error st) (cameraError st) (showEditor st)
    (filter st) (rotation st) (cropStart st) (cropEnd st) (isCropping st)
    (cropPreview st) (isAddingText st) (textOverlay st) (textPosition st)
    (editHistory st) (currentEdit st) (isDraggingText st) (dragStartPos st)
    (showEmojiPicker st) (textRotation st) (isRotatingText st) v
    (objectURLs st).

Definition setObjectURLs (v : url_store) (st : State) : State :=
  mkState (isDragging st) (error st) (cameraError st) (showEditor st)
    (filter st) (rotation st) (cropStart st) (cropEnd st) (isCropping st)
    (cropPreview st) (isAddingText st) (textOverlay st) (textPosition st)
    (editHistory st) (currentEdit st) (isDraggingText st) (dragStartPos st)
    (showEmojiPicker st) (textRotation st) (isRotatingText st) (wizard st) v.

(** *** Constants of the component *)

Definition supportedTypes : list string :=
  ["image/jpeg"; "image/png"; "image/gif"; "image/webp";
   "video/mp4"; "video/quicktime"; "video/x-msvideo"].

(** Max file size (50MB) *)
Definition MAX_FILE_SIZE : Z := 50 * 1024 * 1024.

Definition filters : list (string * string) :=
  [("none", "None"); ("grayscale", "Grayscale"); ("sepia", "Sepia");
   ("invert", "Invert"); ("blur", "Blur"); ("brightness", "Brightness");
   ("contrast", "Contrast")].

Definition defaultTextPosition : point := Point 50 90.

(** Typed reads of the form data; a field of another shape reads as absent. *)
Definition field_strs (fd : gmap string value) (k : string) : list string :=
  match fd !! k with
  | Some (VStrs l) => l
  | _ => []
  end.

Definition field_is (fd : gmap string value) (k s : string) : bool :=
  match fd !! k with
  | Some (VStr s') => String.eqb s' s
  | _ => false
  end.

(** [if (formData.mediaUrl) URL.revokeObjectURL(formData.mediaUrl)] *)
Definition revokeMediaUrl (st : State) : State :=
  match formData (wizard st) !! "mediaUrl" with
  | Some v =>
      if truthy v then setObjectURLs (revokeObjectURL v (objectURLs st)) st else st
  | None => st
  end.

Section Component.

(** The step list of the enclosing provider, and the two [Math] members the
    text-rotation handler uses. *)
Variable steps : list StepDescriptor.
Variable Math_atan2 : Q → Q → Q.
Variable Math_PI : Q.

(** The component's view of the context operations. *)
Definition updateFormData (newData : gmap string value) (st : State) : State :=
  setWizard (WizardContext.updateFormData newData (wizard st)) st.

Definition goToNextStep (st : State) : State :=
  setWizard (WizardContext.goToNextStep steps (wizard st)) st.

(** First render of the step inside a wizard, with the document's URL store.
    [dragStartPos] starts as [{x: 0, y: 0}]; its four fields are read only
    after [handleTextDragStart] has written them. *)
Definition mount (w : WizardState) (urls : url_store) : State :=
  {| isDragging := false; error := ""; cameraError := ""; showEditor := false;
     filter := "none"; rotation := 0;
     cropStart := Some (Corner (Number.of_Z 50) (Number.of_Z 90));
     cropEnd := Some (Corner (Number.of_Z 50) (Number.of_Z 90));
     isCropping := false; cropPreview := None;
     isAddingText := false; textOverlay := ""; textPosition := defaultTextPosition;
     editHistory := []; currentEdit := 0;
     isDraggingText := false;
     dragStartPos := {| mouseX := 0; mouseY := 0; textX := 0; textY := 0 |};
     showEmojiPicker := false; textRotation := 0; isRotatingText := false;
     wizard := w; objectURLs := urls |}.

(** The effect on [formData]: restore the editing cells from the form data.
    Each [if (formData.x) setX(formData.x)] line is one step. A field is read
    at the type the component writes it with; a field of another shape is
    left alone. *)
Definition restoreFilter (fd : gmap string value) (st : State) : State :=
  match fd !! "filter" with
  | Some (VStr s) => if String.eqb s "" then st else setFilter s st
  | _ => st
  end.

Definition restoreRotation (fd : gmap string value) (st : State) : State :=
  match fd !! "rotation" with
  | Some (VInt n) => if n =? 0 then st else setRotation n st
  | _ => st
  end.

Definition restoreTextOverlay (fd : gmap string value) (st : State) : State :=
  match fd !! "textOverlay" with
  | Some (VStr s) => if String.eqb s "" then st else setTextOverlay s st
  | _ => st
  end.

Definition restoreTextPosition (fd : gmap string value) (st : State) : State :=
  match fd !! "textPosition" with
  | Some (VPoint p) => setTextPosition p st
  | _ => st
  end.

Definition restoreTextRotation (fd : gmap string value) (st : State) : State :=
  match fd !! "textRotation" with
  | Some (VNum q) => setTextRotation q st
  | _ => st
  end.

Definition restoreEditingState (st : State) : State :=
  let fd := formData (wizard st) in
  if truthy_field fd "mediaUrl" then
    st |> setShowEditor true
       |> restoreFilter fd
       |> restoreRotation fd
       |> restoreTextOverlay fd
       |> restoreTextPosition fd
       |> restoreTextRotation fd
  else st.

Definition handleDragEnter (st : State) : State := setIsDragging true st.
Definition handleDragLeave (st : State) : State := setIsDragging false st.
Definition handleDragOver (st : State) : State := st.

Definition handleFileSelection (file : File) (st : State) : State :=
  let st := setError "" st in
  if negb (bool_decide (file_type file ∈ supportedTypes)) then
    setError "Unsupported file type. Please upload an image or video." st
  else if file_size file >? MAX_FILE_SIZE then
    setError "File is too large. Maximum size is 50MB." st
  else
    let '(mediaUrl, urls) := createObjectURL (objectURLs st) in
    let mediaType :=
      if String.prefix "image/" (file_type file) then "image" else "video" in
    st |> setObjectURLs urls
       |> setFilter "none"
       |> setRotation 0
       |> setIsCropping false
       |> setIsAddingText false
       |> setTextOverlay ""
       |> setTextPosition defaultTextPosition
       |> setEditHistory []
       |> setCurrentEdit 0
       |> updateFormData
            {[ "media" := VFile file;
               "mediaUrl" := VUrl mediaUrl;
               "mediaType" := VStr mediaType;
               "filter" := VStr "none";
               "rotation" := VInt 0;
               "textOverlay" := VStr "";
               "textPosition" := VPoint defaultTextPosition;
               "filtersApplied" := VStrs [] ]}
       |> setShowEditor true.

Definition handleDrop (files : list File) (st : State) : State :=
  let st := setIsDragging false st in
  match files with
  | file :: _ => handleFileSelection file st
  | [] => st
  end.

Definition handleFileInputChange (files : list File) (st : State) : State :=
  match files with
  | file :: _ => handleFileSelection file st
  | [] => st
  end.

Definition removeMedia (st : State) : State :=
  st |> revokeMediaUrl
     |> updateFormData
          {[ "media" := VNull;
             "mediaUrl" := VStr "";
             "mediaType" := VStr "";
             "filter" := VStr "";
             "rotation" := VInt 0;
             "textOverlay" := VStr "";
             "textPosition" := VPoint defaultTextPosition;
             "filtersApplied" := VStrs [] ]}
     |> setShowEditor false.

Definition createTextOnlyCaption (st : State) : State :=
  st |> updateFormData
          {[ "media" := VNull;
             "mediaUrl" := VStr "";
             "mediaType" := VStr "text-only";
             "isTextOnly" := VBool true ]}
     |> goToNextStep.

Definition applyFilter (filterId : string) (st : State) : State :=
  let st' := setFilter filterId st in
  let filtersApplied := field_strs (formData (wizard st)) "filtersApplied" in
  if negb (String.eqb filterId "none")
     && negb (bool_decide (filterId ∈ filtersApplied))
  then updateFormData
         {[ "filter" := VStr filterId;
            "filtersApplied" := VStrs (filtersApplied ++ [filterId]) ]} st'
  else updateFormData {[ "filter" := VStr filterId ]} st'.

Definition rotateMedia (direction : string) (st : State) : State :=
  let newRotation :=
    if String.eqb direction "clockwise"
    then Z.rem (rotation st + 90) 360
    else Z.rem (rotation st - 90 + 360) 360 in
  st |> setRotation newRotation
     |> updateFormData {[ "rotation" := VInt newRotation ]}.

(** *** Cropping *)

Import PrimFloat.PrimFloatNotations.

Record crop_rect := {
  startX : PrimFloat.float; startY : PrimFloat.float;
  endX : PrimFloat.float; endY : PrimFloat.float
}.

(** Normalize crop coordinates (start is top-left, end is bottom-right). *)
Definition normalize_crop (cs ce : corner) : crop_rect :=
  {| startX := Number.Math_min (cx cs) (cx ce);
     startY := Number.Math_min (cy cs) (cy ce);
     endX := Number.Math_max (cx cs) (cx ce);
     endY := Number.Math_max (cy cs) (cy ce) |}.

(** 5% of the image *)
Definition minSize : PrimFloat.float := Number.of_Q 0.05.

(** The canvas the crop is drawn on, encoded by [toDataURL(mime)]. The
    numbers assigned to [canvas.width] and [canvas.height] are coerced, and
    [drawImage] is called with what the canvas then holds. *)
Definition crop_to_data_url (c : crop_rect) (img : image) (mime : string) : url :=
  let imgWidth := Number.of_Z (naturalWidth img) in
  let imgHeight := Number.of_Z (naturalHeight img) in
  let canvas_width :=
    Number.canvas_dimension 300 ((endX c - startX c) * imgWidth)%float in
  let canvas_height :=
    Number.canvas_dimension 150 ((endY c - startY c) * imgHeight)%float in
  DataURL {| raster_width := canvas_width;
             raster_height := canvas_height;
             raster_sx := (startX c * imgWidth)%float;
             raster_sy := (startY c * imgHeight)%float;
             raster_mime := mime |}.

(** The pointer and the rectangle are numbers of the browser, carried by
    their values. *)
Definition handleCropStart (d : dom) (e : mouse) (st : State) : State :=
  if negb (isCropping st) then st
  else
    let rect := mediaContainerRef d in
    let x := ((Number.of_Q (clientX e) - Number.of_Q (rect_left rect))
              / Number.of_Q (rect_width rect))%float in
    let y := ((Number.of_Q (clientY e) - Number.of_Q (rect_top rect))
              / Number.of_Q (rect_height rect))%float in
    st |> setCropStart (Some (Corner x y))
       |> setCropEnd (Some (Corner x y)).

Definition handleCropMove (d : dom) (e : mouse) (st : State) : State :=
  match isCropping st, cropStart st with
  | true, Some _ =>
      let rect := mediaContainerRef d in
      let x := Number.Math_min
                 (Number.Math_max
                    ((Number.of_Q (clientX e) - Number.of_Q (rect_left rect))
                     / Number.of_Q (rect_width rect))%float
                    (Number.of_Z 0))
                 (Number.of_Z 1) in
      let y := Number.Math_min
                 (Number.Math_max
                    ((Number.of_Q (clientY e) - Number.of_Q (rect_top rect))
                     / Number.of_Q (rect_height rect))%float
                    (Number.of_Z 0))
                 (Number.of_Z 1) in
      setCropEnd (Some (Corner x y)) st
  | _, _ => st
  end.

Definition handleCropEnd (d : dom) (st : State) : State :=
  match isCropping st, cropStart st, cropEnd st with
  | true, Some cs, Some ce =>
      if (PrimFloat.abs (cx ce - cx cs) <? minSize)%float
         || (PrimFloat.abs (cy ce - cy cs) <? minSize)%float
      then st
      else
        let normalizedCrop := normalize_crop cs ce in
        if field_is (formData (wizard st)) "mediaType" "image" then
          match imageRef d with
          | Some img =>
              match formData (wizard st) !! "media" with
              | Some (VFile media) =>
                  let croppedUrl :=
                    crop_to_data_url normalizedCrop img (file_type media) in
                  setCropPreview (Some croppedUrl) st
              | _ => st  (* [formData.media.type] throws before any cell is set *)
              end
          | None => st
          end
        else st
  | _, _, _ => st
  end.

Definition applyCrop (st : State) : State :=
  match cropPreview st with
  | Some preview =>
      st |> revokeMediaUrl
         |> updateFormData {[ "mediaUrl" := VUrl preview ]}
         |> setIsCropping false
         |> setCropPreview None
  | None => st
  end.

Definition cancelCrop (st : State) : State :=
  st |> setIsCropping false |> setCropPreview None.

Definition toggleCropMode (st : State) : State :=
  if isCropping st then
    st |> setIsCropping false |> setCropPreview None
  else
    st |> setIsCropping true |> setIsAddingText false.

(** *** Text overlay *)

Definition toggleTextMode (st : State) : State :=
  let st' := setIsAddingText (negb (isAddingText st)) st in
  if isAddingText st then
    if String.eqb (textOverlay st) "" then st'
    else updateFormData
           {[ "textOverlay" := VStr (textOverlay st);
              "textPosition" := VPoint (textPosition st);
              "textRotation" := VNum (textRotation st) ]} st'
  else setIsCropping false st'.

Definition handleTextChange (text : string) (st : State) : State :=
  st |> setTextOverlay text
     |> updateFormData {[ "textOverlay" := VStr text ]}.

Definition handleTextPositionChange (x y : Q) (st : State) : State :=
  let newPosition := Point (Qmax 0 (Qmin 100 x)) (Qmax 0 (Qmin 100 y)) in
  st |> setTextPosition newPosition
     |> updateFormData {[ "textPosition" := VPoint newPosition ]}.

Definition positionTextAtBottom (st : State) : State :=
  let newPosition := Point 50 90 in
  st |> setTextPosition newPosition
     |> updateFormData {[ "textPosition" := VPoint newPosition ]}.

Definition handleTextDragStart (e : mouse) (st : State) : State :=
  if negb (isAddingText st) then st
  else
    st |> setDragStartPos
            {| mouseX := clientX e; mouseY := clientY e;
               textX := px (textPosition st); textY := py (textPosition st) |}
       |> setIsDraggingText true.

Definition handleTextDragMove (d : dom) (e : mouse) (st : State) : State :=
  if negb (isDraggingText st) || negb (isAddingText st) then st
  else
    let rect := mediaContainerRef d in
    let deltaX := (clientX e - mouseX (dragStartPos st))%Q in
    let deltaY := (clientY e - mouseY (dragStartPos st))%Q in
    let deltaXPercent := (deltaX / rect_width rect * 100)%Q in
    let deltaYPercent := (deltaY / rect_height rect * 100)%Q in
    let newX := (textX (dragStartPos st) + deltaXPercent)%Q in
    let newY := (textY (dragStartPos st) + deltaYPercent)%Q in
    handleTextPositionChange newX newY st.

Definition handleTextDragEnd (st : State) : State :=
  if isDraggingText st then
    st |> setIsDraggingText false
       |> updateFormData {[ "textPosition" := VPoint (textPosition st) ]}
  else st.

Definition handleRotationStart (st : State) : State :=
  if negb (isAddingText st) then st else setIsRotatingText true st.

Definition handleRotationMove (d : dom) (e : mouse) (st : State) : State :=
  if negb (isRotatingText st) || negb (isAddingText st) then st
  else
    let rect := mediaContainerRef d in
    let centerX := (rect_left rect + rect_width rect * px (textPosition st) / 100)%Q in
    let centerY := (rect_top rect + rect_height rect * py (textPosition st) / 100)%Q in
    let angle :=
      (Math_atan2 (clientY e - centerY) (clientX e - centerX) * (180 / Math_PI))%Q in
    setTextRotation angle st.

Definition handleRotationEnd (st : State) : State :=
  if isRotatingText st then
    st |> setIsRotatingText false
       |> updateFormData {[ "textRotation" := VNum (textRotation st) ]}
  else st.

Definition resetEdits (st : State) : State :=
  st |> setFilter "none"
     |> setRotation 0
     |> setTextRotation 0
     |> setIsCropping false
     |> setIsAddingText false
     |> setTextOverlay ""
     |> setTextPosition defaultTextPosition
     |> updateFormData
          {[ "filter" := VStr "none";
             "rotation" := VInt 0;
             "textRotation" := VNum 0;
             "textOverlay" := VStr "";
             "textPosition" := VPoint defaultTextPosition;
             "filtersApplied" := VStrs [] ]}.

Definition saveEdits (st : State) : State :=
  updateFormData
    {[ "editsSaved" := VBool true;
       "textOverlay" := VStr (textOverlay st);
       "textPosition" := VPoint (textPosition st);
       "textRotation" := VNum (textRotation st);
       "filter" := VStr (filter st);
       "rotation" := VInt (rotation st) ]} st.

Definition onEmojiClick (emoji : string) (st : State) : State :=
  st |> setTextOverlay (textOverlay st ++ emoji)
     |> updateFormData {[ "textOverlay" := VStr (textOverlay st ++ emoji) ]}
     |> setShowEmojiPicker false.

Definition resetTextRotation (st : State) : State :=
  st |> setTextRotation 0
     |> updateFormData {[ "textRotation" := VNum 0 ]}.

(** [isStepComplete]: [formData.mediaUrl || formData.isTextOnly] *)
Definition isStepComplete (st : State) : bool :=
  truthy_field (formData (wizard st)) "mediaUrl"
  || truthy_field (formData (wizard st)) "isTextOnly".

(** *** Events of the rendered component *)

Inductive event :=
  | DragEnter
  | DragLeave
  | DragOver
  | Drop (files : list File)
  | FileInputChange (files : list File)
  | ClickTryAgain
  | ClickTextOnly
  | ClickRemove
  | ContainerMouseDown (e : mouse)
  | ContainerMouseMove (e : mouse)
  | ContainerMouseUp
  | ContainerMouseLeave
  | OverlayMouseDown (e : mouse)
  | RotationHandleMouseDown
  | ClickApplyCrop
  | ClickCancelCrop
  | ClickFilter (filterId : string)
  | ClickRotate (direction : string)
  | ClickCrop
  | ClickText
  | ClickReset
  | ClickSave
  | TextChange (text : string)
  | ClickEmojiButton
  | EmojiClick (emoji : string)
  | ClickResetRotation
  | ClickPositionAtBottom
  | FormDataEffect.

(** The pointer handlers of the preview container pick one gesture. *)
Definition onMouseDown (d : dom) (e : mouse) (st : State) : State :=
  if isCropping st then handleCropStart d e st else st.

Definition onMouseMove (d : dom) (e : mouse) (st : State) : State :=
  if isDraggingText st then handleTextDragMove d e st
  else if isRotatingText st then handleRotationMove d e st
  else if isCropping st then handleCropMove d e st
  else st.

Definition onMouseUp (d : dom) (st : State) : State :=
  if isDraggingText st then handleTextDragEnd st
  else if isRotatingText st then handleRotationEnd st
  else if isCropping st then handleCropEnd d st
  else st.

Definition onMouseLeave (d : dom) (st : State) : State :=
  if isDraggingText st then handleTextDragEnd st
  else if isRotatingText st then handleRotationEnd st
  else if isCropping st then handleCropEnd d st
  else st.

Definition handle (d : dom) (ev : event) (st : State) : State :=
  match ev with
  | DragEnter => handleDragEnter st
  | DragLeave => handleDragLeave st
  | DragOver => handleDragOver st
  | Drop files => handleDrop files st
  | FileInputChange files => handleFileInputChange files st
  | ClickTryAgain => setCameraError "" st
  | ClickTextOnly => createTextOnlyCaption st
  | ClickRemove => removeMedia st
  | ContainerMouseDown e => onMouseDown d e st
  | ContainerMouseMove e => onMouseMove d e st
  | ContainerMouseUp => onMouseUp d st
  | ContainerMouseLeave => onMouseLeave d st
  | OverlayMouseDown e => handleTextDragStart e st
  | RotationHandleMouseDown => handleRotationStart st
  | ClickApplyCrop => applyCrop st
  | ClickCancelCrop => cancelCrop st
  | ClickFilter filterId => applyFilter filterId st
  | ClickRotate direction => rotateMedia direction st
  | ClickCrop => toggleCropMode st
  | ClickText => toggleTextMode st
  | ClickReset => resetEdits st
  | ClickSave => saveEdits st
  | TextChange text => handleTextChange text st
  | ClickEmojiButton => setShowEmojiPicker (negb (showEmojiPicker st)) st
  | EmojiClick emoji => onEmojiClick emoji st
  | ClickResetRotation => resetTextRotation st
  | ClickPositionAtBottom => positionTextAtBottom st
  | FormDataEffect => restoreEditingState st
  end.

(** A user session: each event fires against the DOM of the moment. *)
Definition interact (evs : list (dom * event)) (st : State) : State :=
  fold_left (fun s de => handle (fst de) (snd de) s) evs st.

(** States of the editor after any sequence of interactions, once mounted in
    a wizard state [w] with the document's URLs [urls]. *)
Inductive editor_reachable (w : WizardState) (urls : url_store) : State → Prop :=
  | editor_mounted : editor_reachable w urls (mount w urls)
  | editor_handled d ev st :
      editor_reachable w urls st → editor_reachable w urls (handle d ev st).

(** The previewable reference the form data holds, when it is an object URL. *)
Definition held_handle (st : State) : option nat :=
  match formData (wizard st) !! "mediaUrl" with
  | Some (VUrl (ObjectURL h)) => Some h
  | _ => None
  end.

End Component.

End UploadMediaStep.

(** ** CaptionGenerator.jsx *)

Module CaptionGenerator.

Import WizardContext.

(** The steps of the caption generation process. *)
Definition WIZARD_STEPS : list StepDescriptor :=
  [ {| id := "upload_media"; label := "Upload Media" |};
    {| id := "select_niche"; label := "Select Niche" |};
    {| id := "platform"; label := "Platform" |};
    {| id := "goal"; label := "Goal" |};
    {| id := "tone"; label := "Tone" |};
    {| id := "generated_captions"; label := "Generated Captions" |} ].

(** Initial form data (empty) *)
Definition initialData : gmap string value :=
  {[ "media" := VNull;
     "mediaUrl" := VStr "";
     "mediaType" := VStr "";
     "niche" := VStr "";
     "platform" := VStr "";
     "goal" := VStr "";
     "tone" := VStr "";
     "generatedCaptions" := VStrs [];
     "selectedCaption" := VNull ]}.

(** Validate each step before allowing to proceed. *)
Definition validateStep (stepIndex : Z) (formData : gmap string value) : bool :=
  if stepIndex =? 0 then
    truthy_field formData "mediaUrl" || truthy_field formData "isTextOnly"
  else if stepIndex =? 1 then truthy_field formData "niche"
  else true.

End CaptionGenerator.

(** ** StepIndicator.jsx *)

Module StepIndicator.

Import WizardContext.

Section Indicator.

Variable steps : list StepDescriptor.

(** The status of the step circle at [index]. *)
Definition isActive (s : WizardState) (index : Z) : bool := currentStep s =? index.

Definition isPending (s : WizardState) (index : Z) : bool :=
  negb (isActive s index) && negb (isStepCompleted steps s index).

(** Determine if this step can be clicked (completed steps and current+1). *)
Definition canClick (s : WizardState) (index : Z) : bool :=
  isStepCompleted steps s index || (index =? keys_length (completedSteps s)).

(** The circle's [onClick={() => canClick && goToStep(index)}]. *)
Definition onClick (index : Z) (s : WizardState) : WizardState :=
  if canClick s index then goToStep steps index s else s.

End Indicator.

End StepIndicator.

(** ** WizardLayout.jsx *)

Module WizardLayout.

Import WizardContext.

(** Default validation based on step index. *)
Definition defaultValidation (currentStep : Z) (formData : gmap string value) : bool :=
  if currentStep =? 0 then
    truthy_field formData "mediaUrl" || truthy_field formData "isTextOnly"
  else if currentStep =? 1 then
    truthy_field formData "nicheInput" || truthy_field formData "nicheSelected"
  else true.

Section Layout.

(** The props of the layout: the host's validator, when it passes one, and
    whether it passes [onComplete]. *)
Variable steps : list StepDescriptor.
Variable validateStep : option (Z → gmap string value → bool).
Variable onComplete : bool.

(** Determine if the current step is valid and can proceed. *)
Definition canProceed (s : WizardState) : bool :=
  match validateStep with
  | Some validate => validate (currentStep s) (formData s)
  | None => defaultValidation (currentStep s) (formData s)
  end.

(** Handle the finish action: the form data handed to [onComplete], if it
    is called. *)
Definition handleComplete (s : WizardState) : option (gmap string value) :=
  if onComplete && canProceed s then Some (formData s) else None.

(** Handle next button click with validation. *)
Definition handleNext (s : WizardState) : WizardState :=
  if canProceed s then goToNextStep steps s else s.

(** The Previous button: [onClick={goToPrevStep}], [disabled={isFirstStep}]. *)
Definition clickPrevious (s : WizardState) : WizardState :=
  if isFirstStep s then s else goToPrevStep s.

(** The Next/Finish button: [onClick={isLastStep ? handleComplete : handleNext}],
    [disabled={!canProceed()}]. The result is the next wizard state and what
    the host's [onComplete] received. *)
Definition clickNext (s : WizardState) : WizardState * option (gmap string value) :=
  if negb (canProceed s) then (s, None)
  else if isLastStep steps s then (s, handleComplete s)
  else (handleNext s, None).

End Layout.

End WizardLayout.

(** ** CaptionGenerator.jsx: the page around the wizard *)

Module CaptionGeneratorPage.

Import WizardContext.

(** The page's own cells. *)
Record PageState := { isComplete : bool; finalData : option (gmap string value) }.

Definition initialPage : PageState := {| isComplete := false; finalData := None |}.

(** Handle wizard completion. *)
Definition handleComplete (formData : gmap string value) (p : PageState) : PageState :=
  {| isComplete := true; finalData := Some formData |}.

(** [ActiveStepContent]: the step whose component is rendered; [None] is the
    "Step not found" fallback. Every descriptor carries its component, as
    those of [WIZARD_STEPS] do. *)
Definition ActiveStepContent (steps : list StepDescriptor) (s : WizardState)
  : option StepDescriptor :=
  nth_step steps (currentStep s).

End CaptionGeneratorPage.

(** ** SelectNicheStep.jsx (1.0.0) *)

Module SelectNicheStep.

Import WizardContext.

(** Pre-defined niche options: id and label. *)
Definition NICHE_OPTIONS : list (string * string) :=
  [("business", "Business & Entrepreneurship");
   ("fitness", "Fitness & Health");
   ("food", "Food & Cooking");
   ("travel", "Travel & Adventure");
   ("fashion", "Fashion & Beauty");
   ("tech", "Technology & Gadgets");
   ("art", "Art & Design");
   ("education", "Education & Learning");
   ("motivation", "Motivation & Inspiration");
   ("entertainment", "Entertainment & Media");
   ("parenting", "Parenting & Family");
   ("finance", "Finance & Investing")].

Record State := {
  customNiche : string;
  selectedNiche : string;
  wizard : WizardState
}.

(** [NICHE_OPTIONS.some(option => option.id === niche)] *)
Definition isPredefined (niche : string) : bool :=
  existsb (λ option, String.eqb (fst option) niche) NICHE_OPTIONS.

(** The effect on [formData.niche]: initialize from existing form data. *)
Definition restoreSelection (st : State) : State :=
  match formData (wizard st) !! "niche" with
  | Some (VStr niche) =>
      if String.eqb niche "" then st
      else if isPredefined niche then
        {| customNiche := customNiche st; selectedNiche := niche; wizard := wizard st |}
      else
        {| customNiche := niche; selectedNiche := "custom"; wizard := wizard st |}
  | _ => st
  end.

(** Handle niche selection. *)
Definition handleNicheSelection (nicheId : string) (st : State) : State :=
  {| customNiche := customNiche st;
     selectedNiche := nicheId;
     wizard :=
       if String.eqb nicheId "custom"
       then updateFormData {[ "niche" := VStr (customNiche st) ]} (wizard st)
       else updateFormData {[ "niche" := VStr nicheId ]} (wizard st) |}.

(** Handle custom niche input. *)
Definition handleCustomNicheChange (value : string) (st : State) : State :=
  {| customNiche := value;
     selectedNiche := selectedNiche st;
     wizard :=
       if String.eqb (selectedNiche st) "custom"
       then updateFormData {[ "niche" := VStr value ]} (wizard st)
       else wizard st |}.

Inductive event :=
  | ClickNiche (nicheId : string)
  | ChangeCustomNiche (value : string)
  | NicheEffect.

Definition handle (ev : event) (st : State) : State :=
  match ev with
  | ClickNiche nicheId => handleNicheSelection nicheId st
  | ChangeCustomNiche value => handleCustomNicheChange value st
  | NicheEffect => restoreSelection st
  end.

(** First render, followed by its effect. *)
Definition mount (w : WizardState) : State :=
  restoreSelection {| customNiche := ""; selectedNiche := ""; wizard := w |}.

Inductive niche_reachable (w : WizardState) : State → Prop :=
  | niche_mounted : niche_reachable w (mount w)
  | niche_handled ev st : niche_reachable w st → niche_reachable w (handle ev st).

End SelectNicheStep.

(** ** SelectNicheStep.jsx, version 1.2.0 *)

Module SelectNicheStep12.

Import WizardContext.

(** Predefined niche options: id and label (the icon is only displayed). *)
Definition NICHE_OPTIONS : list (string * string) :=
  [("business", "Business");
   ("technology", "Technology");
   ("art-design", "Art & Design");
   ("seo-marketing", "SEO & Marketing");
   ("fitness", "Fitness");
   ("food-cooking", "Food & Cooking");
   ("travel", "Travel");
   ("education", "Education");
   ("fashion", "Fashion");
   ("gaming", "Gaming");
   ("photography", "Photography");
   ("entertainment", "Entertainment")].

Record State := {
  customNiche : string;
  selectedNicheId : string;
  error : string;
  isCustomized : bool;
  wizard : WizardState
}.

(** A field of the form data that holds a string; a missing field reads as
    the empty string, which is as falsy as [undefined]. Fields of another
    type are outside the model. *)
Definition text_field (fd : gmap string value) (key : string) : string :=
  match fd !! key with
  | Some (VStr text) => text
  | _ => ""
  end.

(** [NICHE_OPTIONS.find(niche => niche.id === nicheId)] *)
Definition find_niche (nicheId : string) : option (string * string) :=
  List.find (λ niche, String.eqb (fst niche) nicheId) NICHE_OPTIONS.

(** Effect: initialize from existing data if available. *)
Definition restoreSelection (st : State) : State :=
  let nicheSelected := text_field (formData (wizard st)) "nicheSelected" in
  let nicheInput := text_field (formData (wizard st)) "nicheInput" in
  if negb (String.eqb nicheSelected "") then
    match find_niche nicheSelected with
    | Some selectedNiche =>
        if negb (String.eqb nicheInput "")
           && negb (String.eqb nicheInput (snd selectedNiche))
        then {| customNiche := nicheInput; selectedNicheId := nicheSelected;
                error := error st; isCustomized := true; wizard := wizard st |}
        else {| customNiche := snd selectedNiche; selectedNicheId := nicheSelected;
                error := error st; isCustomized := false; wizard := wizard st |}
    | None =>
        {| customNiche := customNiche st; selectedNicheId := nicheSelected;
           error := error st; isCustomized := isCustomized st; wizard := wizard st |}
    end
  else if negb (String.eqb nicheInput "") then
    {| customNiche := nicheInput; selectedNicheId := "";
       error := error st; isCustomized := false; wizard := wizard st |}
  else st.

(** Handle custom niche input change. Reading [selectedNiche.label] throws a
    [TypeError] when [find] returned [undefined]. *)
Definition handleCustomNicheChange (value : string) (st : State) : outcome State :=
  if (String.length value <=? 100)%nat then
    if negb (String.eqb (selectedNicheId st) "") then
      match find_niche (selectedNicheId st) with
      | Some selectedNiche =>
          Returned
            {| customNiche := value; selectedNicheId := selectedNicheId st;
               error := "";
               isCustomized := negb (String.eqb value (snd selectedNiche));
               wizard :=
                 updateFormData
                   {[ "nicheSelected" := VStr (selectedNicheId st);
                      "nicheInput" := VStr value;
                      "niche" := VStr value ]} (wizard st) |}
      | None => Thrown "TypeError"
      end
    else
      Returned
        {| customNiche := value; selectedNicheId := selectedNicheId st;
           error := ""; isCustomized := isCustomized st;
           wizard :=
             updateFormData
               {[ "nicheInput" := VStr value;
                  "nicheSelected" := VStr "";
                  "niche" := VStr value ]} (wizard st) |}
  else Returned st.

(** Handle predefined niche selection. *)
Definition handleNicheSelect (niche : string * string) (st : State) : State :=
  {| customNiche := snd niche; selectedNicheId := fst niche;
     error := ""; isCustomized := false;
     wizard :=
       updateFormData
         {[ "nicheSelected" := VStr (fst niche);
            "nicheInput" := VStr (snd niche);
            "niche" := VStr (snd niche) ]} (wizard st) |}.

(** Clear selection completely. *)
Definition clearSelection (st : State) : State :=
  {| customNiche := ""; selectedNicheId := "";
     error := error st; isCustomized := false;
     wizard :=
       updateFormData
         {[ "nicheSelected" := VStr "";
            "nicheInput" := VStr "";
            "niche" := VStr "" ]} (wizard st) |}.

(** What the rendered step reacts to: typing in the text field, a click on
    one of the listed cards, the clear button, and the effect on the form
    data. *)
Inductive event :=
  | ChangeCustomNiche (value : string)
  | ClickNiche (niche : string * string)
  | ClickClear
  | FormDataEffect.

Definition handle (ev : event) (st : State) : outcome State :=
  match ev with
  | ChangeCustomNiche value => handleCustomNicheChange value st
  | ClickNiche niche => Returned (handleNicheSelect niche st)
  | ClickClear => Returned (clearSelection st)
  | FormDataEffect => Returned (restoreSelection st)
  end.

(** First render, followed by its effect. *)
Definition mount (w : WizardState) : State :=
  restoreSelection
    {| customNiche := ""; selectedNicheId := ""; error := "";
       isCustomized := false; wizard := w |}.

(** The states of a mounted step; the cards rendered are the listed ones.
    What follows a handler that threw is not part of the model. *)
Inductive niche_reachable (w : WizardState) : State → Prop :=
  | niche_mounted : niche_reachable w (mount w)
  | niche_handled ev st st' :
      niche_reachable w st →
      (∀ niche, ev = ClickNiche niche → niche ∈ NICHE_OPTIONS) →
      handle ev st = Returned st' →
      niche_reachable w st'.

End SelectNicheStep12.

(** * Specification predicates *)

Module WizardSpec.

Import WizardContext.

(** The ids of the step list, in order. *)
Definition step_ids (steps : list StepDescriptor) : list string := id <$> steps.

(** Step [k] is in the completed set: its id is a key of [completedSteps]
    that holds [true]. This is membership in the set the specification speaks
    of; the accessor [isStepCompleted] also sees inherited members. *)
Definition completed (steps : list StepDescriptor) (s : WizardState) (k : Z) : bool :=
  match completedSteps s !! property_key (step_id steps k) with
  | Some b => b
  | None => false
  end.

(** The id of step [k] is a name every object inherits. *)
Definition inherited (steps : list StepDescriptor) (k : Z) : Prop :=
  property_key (step_id steps k) ∈ Object_prototype.

(** The condition under which the specification lets [goToStep k] jump: [k]
    in bounds, and step [k] completed or [k] the next step not yet visited. *)
Definition jump_allowed (steps : list StepDescriptor) (s : WizardState) (k : Z) : Prop :=
  0 ≤ k < totalSteps steps
  ∧ (completed steps s k = true ∨ k = keys_length (completedSteps s)).

(** The state [goToStep k] installs when it jumps. *)
Definition jumped (k : Z) (s : WizardState) : WizardState :=
  {| currentStep := k; formData := formData s; completedSteps := completedSteps s |}.

(** [completedSteps] holds exactly the ids of the first [size completedSteps]
    steps. *)
Definition completed_is_prefix (steps : list StepDescriptor) (s : WizardState) : Prop :=
  dom (completedSteps s)
  = list_to_set (take (size (completedSteps s)) (step_ids steps)).

(** The count test [Object.keys(completedSteps).length >= k] of [goToStep]. *)
Definition count_test (s : WizardState) (k : Z) : bool :=
  keys_length (completedSteps s) >=? k.

(** Every operation but the reset keeps the progress made so far. *)
Definition is_reset (a : action) : bool :=
  match a with
  | ResetWizard _ => true
  | _ => false
  end.

(** What every state of a mounted wizard satisfies. *)
Record wizard_inv (steps : list StepDescriptor) (s : WizardState) : Prop := {
  inv_current : 0 ≤ currentStep s ≤ keys_length (completedSteps s);
  inv_size : (size (completedSteps s) ≤ length steps)%nat;
  inv_last : steps ≠ [] → (size (completedSteps s) < length steps)%nat;
  inv_prefix : completed_is_prefix steps s;
  inv_true : ∀ key b, completedSteps s !! key = Some b → b = true
}.

End WizardSpec.

Module EditorSpec.

Import WizardContext UploadMediaStep.
Import PrimFloat.PrimFloatNotations.

(** A crop gesture whose corners differ by less than the minimum size on
    either axis, in the numbers of the language. *)
Definition small_gesture (cs ce : corner) : Prop :=
  (PrimFloat.abs (cx ce - cx cs) <? minSize)%float = true
  ∨ (PrimFloat.abs (cy ce - cy cs) <? minSize)%float = true.


(** Degrees normalised to one turn. *)
Definition normalized (r : Z) : Prop := 0 ≤ r < 360.

(** The two interaction modes are not active together. *)
Definition modes_exclusive (st : State) : Prop :=
  ¬ (isCropping st = true ∧ isAddingText st = true).

(** An object URL handle the document no longer keeps alive. *)
Definition released (h : nat) (st : State) : Prop := h ∉ live (objectURLs st).

(** The [rotation] field of the form data is absent or normalised. *)
Definition rotation_field_ok (fd : gmap string value) : Prop :=
  match fd !! "rotation" with
  | None => True
  | Some (VInt n) => normalized n
  | Some _ => False
  end.

End EditorSpec.

(** * A sample session of the caption generator *)

Module Scenario.

Import WizardContext UploadMediaStep CaptionGenerator.

(** The preview container measures 1000 x 500 CSS pixels at the origin and
    shows an image of natural size 1000 x 500. *)
Definition page : dom :=
  {| mediaContainerRef :=
       {| rect_left := 0; rect_top := 0; rect_width := 1000; rect_height := 500 |};
     imageRef := Some {| naturalWidth := 1000; naturalHeight := 500 |} |}.

Definition photo : File := {| file_type := "image/jpeg"; file_size := 204800 |}.
Definition drawing : File := {| file_type := "image/png"; file_size := 1024 |}.

(** The text-rotation handler is not exercised here; any reading of the two
    [Math] members will do. *)
Definition atan2_flat (y x : Q) : Q := 0.
Definition pi_approx : Q := 3.14159.

(** The upload step as first rendered by the caption generator. *)
Definition fresh : State :=
  mount (initialState initialData) {| live := ∅; next_handle := 0 |}.

(** Fire a list of events on the sample page. *)
Definition play (evs : list event) (st : State) : State :=
  interact WIZARD_STEPS atan2_flat pi_approx (map (λ ev, (page, ev)) evs) st.

(** The user has picked the photo. *)
Definition selected : State := play [FileInputChange [photo]] fresh.

(** The user has entered crop mode and dragged from (100, 100) to (600, 400):
    the normalised corners are (0.1, 0.2) and (0.6, 0.8). *)
Definition crop_dragged : State :=
  play [ClickCrop;
        ContainerMouseDown {| clientX := 100; clientY := 100 |};
        ContainerMouseMove {| clientX := 600; clientY := 400 |}] selected.

(** The same with a drag of 20 pixels across: 2% of the width. *)
Definition crop_nudged : State :=
  play [ClickCrop;
        ContainerMouseDown {| clientX := 100; clientY := 100 |};
        ContainerMouseMove {| clientX := 120; clientY := 400 |}] selected.

(** The same with a drag of 50 pixels across: 5% of the width as a ratio of
    pixels, less than [minSize] as the numbers subtract. *)
Definition crop_five_percent : State :=
  play [ClickCrop;
        ContainerMouseDown {| clientX := 100; clientY := 100 |};
        ContainerMouseMove {| clientX := 150; clientY := 400 |}] selected.


(** A container only 80 pixels wide over the same image, and a drag from
    x = 1 to x = 5 on it: the corners are 0.0125 and 0.0625. *)
Definition strip : dom :=
  {| mediaContainerRef :=
       {| rect_left := 0; rect_top := 0; rect_width := 80; rect_height := 500 |};
     imageRef := Some {| naturalWidth := 1000; naturalHeight := 500 |} |}.

Definition crop_on_strip : State :=
  interact WIZARD_STEPS atan2_flat pi_approx
    [(strip, ClickCrop);
     (strip, ContainerMouseDown {| clientX := 1; clientY := 100 |});
     (strip, ContainerMouseMove {| clientX := 5; clientY := 400 |})] selected.


(** Three clockwise quarter turns. *)
Definition turned : State :=
  play [ClickRotate "clockwise"; ClickRotate "clockwise"; ClickRotate "clockwise"]
       selected.

End Scenario.

(** * Further predicates on runs and sessions *)

Module RunSpec.

Import WizardContext WizardSpec.

(** A run that never resets the wizard. *)
Definition no_reset (acts : list action) : bool :=
  forallb (λ a, negb (is_reset a)) acts.

(** The three operations that move between steps. *)
Definition is_navigation (a : action) : bool :=
  match a with
  | GoToNextStep | GoToPrevStep | GoToStep _ => true
  | UpdateFormData _ | ResetWizard _ => false
  end.

End RunSpec.

Module SessionSpec.

Import WizardContext UploadMediaStep.

(** The supported types that are images. *)
Definition image_types : list string :=
  ["image/jpeg"; "image/png"; "image/gif"; "image/webp"].

(** The keys [handleFileSelection] and [removeMedia] write. *)
Definition media_keys : list string :=
  ["media"; "mediaUrl"; "mediaType"; "filter"; "rotation"; "textOverlay";
   "textPosition"; "filtersApplied"].

(** The keys [resetEdits] writes. *)
Definition edit_keys : list string :=
  ["filter"; "rotation"; "textRotation"; "textOverlay"; "textPosition";
   "filtersApplied"].

(** A pending crop preview is a [data:] URL, never an object URL. *)
Definition preview_is_data (st : State) : Prop :=
  match cropPreview st with
  | Some (ObjectURL _) => False
  | _ => True
  end.

(** The object URL the form data holds, if any, is alive. *)
Definition held_is_live (st : State) : Prop :=
  ∀ h, held_handle st = Some h → h ∈ live (objectURLs st).

(** The log of applied filters has no duplicate and no "none". *)
Definition filters_log_ok (fd : gmap string value) : Prop :=
  NoDup (field_strs fd "filtersApplied") ∧ "none" ∉ field_strs fd "filtersApplied".

(** A position in percent of the container. *)
Definition in_percent (p : point) : Prop :=
  (0 <= px p ∧ px p <= 100 ∧ 0 <= py p ∧ py p <= 100)%Q.

Definition position_field_ok (fd : gmap string value) : Prop :=
  match fd !! "textPosition" with
  | Some (VPoint p) => in_percent p
  | _ => True
  end.


(** The editing cells a saved edit brings back. *)
Definition same_edits (st st' : State) : Prop :=
  filter st' = filter st
  ∧ rotation st' = rotation st
  ∧ textOverlay st' = textOverlay st
  ∧ textPosition st' = textPosition st
  ∧ textRotation st' = textRotation st.

(** The one event of the upload step that moves the wizard. *)
Definition is_text_only_click (ev : event) : bool :=
  match ev with
  | ClickTextOnly => true
  | _ => false
  end.

End SessionSpec.

Module NicheSpec.

Import WizardContext SelectNicheStep.

(** The niche the form data holds, read as the step's effect reads it. *)
Definition niche_text (fd : gmap string value) : string :=
  match fd !! "niche" with
  | Some (VStr niche) => niche
  | _ => ""
  end.

(** The niche of the form data is a string or is missing, as the page's
    initial data and every update of the step have it. *)
Definition niche_is_text (fd : gmap string value) : bool :=
  match fd !! "niche" with
  | Some (VStr _) | None => true
  | Some _ => false
  end.

(** The niche the step shows as chosen: the custom text when the custom
    card is selected, the selected card otherwise. *)
Definition shown_niche (st : State) : string :=
  if String.eqb (selectedNiche st) "custom" then customNiche st
  else selectedNiche st.

End NicheSpec.

Module NicheSpec12.

Import WizardContext SelectNicheStep12.

(** The two fields the effect tests hold strings or are missing. *)
Definition fields_are_text (fd : gmap string value) : bool :=
  forallb (λ key, match fd !! key with
                  | Some (VStr _) | None => true
                  | Some _ => false
                  end) ["nicheSelected"; "nicheInput"].

(** No card is selected, or the selected card is a listed one. *)
Definition selection_is_listed (nicheId : string) : bool :=
  String.eqb nicheId "" || bool_decide (is_Some (find_niche nicheId)).

(** The events whose handler writes the form data: a click on a card or on
    the clear button, and typing a text within the limit. *)
Definition writes_form_data (ev : event) : bool :=
  match ev with
  | ChangeCustomNiche value => (String.length value <=? 100)%nat
  | ClickNiche _ | ClickClear => true
  | FormDataEffect => false
  end.

(** The form data and the step agree on the selected card. *)
Definition selection_in_sync (st : State) : Prop :=
  fields_are_text (formData (wizard st)) = true
  ∧ text_field (formData (wizard st)) "nicheSelected" = selectedNicheId st
  ∧ selection_is_listed (selectedNicheId st) = true.

End NicheSpec12.

(** * Further sample runs and sessions *)

Module Samples.

Import WizardContext UploadMediaStep CaptionGenerator Scenario.

(** The caption generator's wizard after one and after two steps forward. *)
Definition second_step : WizardState :=
  run WIZARD_STEPS [GoToNextStep] (initialState initialData).
Definition third_step : WizardState :=
  run WIZARD_STEPS [GoToNextStep; GoToNextStep] (initialState initialData).

(** Back, an edit of the form data, a jump and a step forward. *)
Definition wander : list action :=
  [GoToPrevStep; UpdateFormData {[ "niche" := VStr "travel" ]}; GoToStep 1;
   GoToNextStep].

(** A step list whose last id is a name every object inherits. *)
Definition inherited_steps : list StepDescriptor :=
  [{| id := "upload_media"; label := "Upload Media" |};
   {| id := "select_niche"; label := "Select Niche" |};
   {| id := "constructor"; label := "Constructor" |}].

Definition leaflet : File := {| file_type := "application/pdf"; file_size := 2048 |}.


(** The photo in sepia, turned once, with a text. *)
Definition edited : State :=
  play [ClickFilter "sepia"; ClickRotate "clockwise"; ClickText; TextChange "sunset"]
       selected.

(** Sepia, back to none, sepia again. *)
Definition filtered : State :=
  play [ClickFilter "sepia"; ClickFilter "none"; ClickFilter "sepia"] selected.

(** The text grabbed at the centre and dragged far out of the container. *)
Definition dragged_out : State :=
  play [ClickText; TextChange "sunset";
        OverlayMouseDown {| clientX := 500; clientY := 250 |};
        ContainerMouseMove {| clientX := 5000; clientY := -300 |}] selected.

End Samples.

Module NicheSamples.

Import WizardContext CaptionGenerator SelectNicheStep.

(** The niche step as the caption generator first renders it. *)
Definition blank : State := mount (initialState initialData).

(** The custom card selected, nothing typed yet. *)
Definition custom_card : State := handle (ClickNiche "custom") blank.

(** "pets" typed under the custom card. *)
Definition pets : State := handle (ChangeCustomNiche "pets") custom_card.

End NicheSamples.

Module NicheSamples12.

Import WizardContext SelectNicheStep12.

Definition travel : string * string := ("travel", "Travel").

(** Version 1.2.0 of the step over an empty form. *)
Definition blank : State := mount (initialState ∅).

(** The travel card selected. *)
Definition travel_card : State := handleNicheSelect travel blank.

(** A form that carries the id "tech", which this version does not list. *)
Definition stale_form : WizardState :=
  initialState {[ "nicheSelected" := VStr "tech" ]}.

End NicheSamples12.

(** * Properties of the wizard context *)

Section WizardProperties.

Import WizardContext WizardSpec.

Variable steps : list StepDescriptor.

Implicit Types (s : WizardState) (k : Z).

(** ** Indexing the step list *)

Lemma nth_step_in_bounds k :
  0 ≤ k < totalSteps steps → ∃ step, nth_step steps k = Some step.
Proof.
  intros [Hlo Hhi]. unfold nth_step, totalSteps in *.
  destruct (Z.ltb_spec k 0) as [?|_]; [lia|].
  destruct (lookup_lt_is_Some_2 steps (Z.to_nat k)) as [step Hstep]; [lia|].
  by exists step.
Qed.

Lemma step_id_lookup k key :
  0 ≤ k → step_id steps k = Some key ↔ step_ids steps !! Z.to_nat k = Some key.
Proof.
  intros Hk. unfold step_id, nth_step, step_ids.
  destruct (Z.ltb_spec k 0) as [?|_]; [lia|].
  by rewrite list_lookup_fmap.
Qed.

Lemma step_id_in_bounds k :
  0 ≤ k < totalSteps steps → ∃ key, step_id steps k = Some key.
Proof.
  intros Hk. destruct (nth_step_in_bounds k Hk) as [step Hstep].
  exists (id step). unfold step_id. by rewrite Hstep.
Qed.

(** With distinct ids, an id lies among the first [c] ids exactly when its
    index is below [c]. *)
Lemma elem_of_take_ids (c i : nat) key :
  NoDup (step_ids steps) →
  step_ids steps !! i = Some key →
  key ∈ take c (step_ids steps) ↔ (i < c)%nat.
Proof.
  intros Hnd Hi. rewrite elem_of_take. split.
  - intros (j & Hj & Hlt). by rewrite (NoDup_lookup _ _ _ _ Hnd Hi Hj).
  - intros Hlt. by exists i.
Qed.

(** ** The invariant of a mounted wizard *)

Lemma wizard_inv_initial initialData : wizard_inv steps (initialState initialData).
Proof.
  split; simpl.
  - unfold keys_length. rewrite map_size_empty. lia.
  - rewrite map_size_empty. lia.
  - rewrite map_size_empty. destruct steps; [done | simpl; lia].
  - unfold completed_is_prefix. simpl. rewrite map_size_empty. simpl.
    by rewrite dom_empty_L.
  - intros key b. by rewrite lookup_empty.
Qed.

(** Under the invariant, a step in bounds is completed exactly when its index
    is below the number of completed steps. *)
Lemma completed_iff_lt s k :
  NoDup (step_ids steps) → wizard_inv steps s → 0 ≤ k < totalSteps steps →
  completed steps s k = true ↔ k < keys_length (completedSteps s).
Proof.
  intros Hnd Hinv Hk.
  destruct (step_id_in_bounds k Hk) as [key Hkey].
  pose proof Hkey as Hlook. apply step_id_lookup in Hlook; [|lia].
  unfold completed, keys_length. rewrite Hkey. simpl.
  assert (key ∈ dom (completedSteps s) ↔ (Z.to_nat k < size (completedSteps s))%nat)
    as Hdom.
  { rewrite (inv_prefix _ _ Hinv), elem_of_list_to_set.
    by apply elem_of_take_ids. }
  split.
  - intros Hc. destruct (completedSteps s !! key) as [b|] eqn:Hb; [|done].
    assert (Z.to_nat k < size (completedSteps s))%nat; [|lia].
    apply Hdom, elem_of_dom. by exists b.
  - intros Hlt. assert (key ∈ dom (completedSteps s)) as Hin by (apply Hdom; lia).
    apply elem_of_dom in Hin as [b Hb]. rewrite Hb.
    by apply (inv_true _ _ Hinv key).
Qed.

(** Under the invariant, the accessor reports a step in bounds as completed
    exactly when it is in the completed set or its id is an inherited name. *)
Lemma isStepCompleted_iff s k :
  NoDup (step_ids steps) → wizard_inv steps s → 0 ≤ k < totalSteps steps →
  isStepCompleted steps s k = true
  ↔ k < keys_length (completedSteps s) ∨ inherited steps k.
Proof.
  intros Hnd Hinv Hk.
  rewrite <- (completed_iff_lt s k Hnd Hinv Hk).
  unfold isStepCompleted, get_truthy, completed, inherited.
  destruct (completedSteps s !! property_key (step_id steps k)) as [b|] eqn:Hb.
  - rewrite (inv_true _ _ Hinv _ _ Hb). by split; [left|].
  - rewrite bool_decide_eq_true. split; [by right | by intros [?|?]].
Qed.

Lemma wizard_inv_goToNextStep s :
  NoDup (step_ids steps) → wizard_inv steps s → wizard_inv steps (goToNextStep steps s).
Proof.
  intros Hnd Hinv. unfold goToNextStep.
  destruct (Z.ltb_spec (currentStep s) (totalSteps steps - 1)) as [Hlt|_]; [|done].
  pose proof (inv_current _ _ Hinv) as Hcur.
  assert (0 ≤ currentStep s < totalSteps steps) as Hk by lia.
  destruct (step_id_in_bounds _ Hk) as [key Hkey].
  pose proof Hkey as Hlook. apply step_id_lookup in Hlook; [|lia].
  unfold currentStepId. rewrite Hkey. simpl.
  unfold keys_length, totalSteps in *.
  destruct (decide (currentStep s = Z.of_nat (size (completedSteps s)))) as [Heq|Hne].
  - (* the step being left is the first one not yet completed *)
    assert (Z.to_nat (currentStep s) = size (completedSteps s)) as Hidx by lia.
    rewrite Hidx in Hlook.
    assert (completedSteps s !! key = None) as Hfresh.
    { apply not_elem_of_dom. rewrite (inv_prefix _ _ Hinv), elem_of_list_to_set.
      rewrite (elem_of_take_ids _ _ _ Hnd Hlook). lia. }
    split; simpl; unfold keys_length, completed_is_prefix; simpl;
      rewrite ?(map_size_insert_None _ _ _ Hfresh).
    + lia.
    + lia.
    + intros _. lia.
    + rewrite dom_insert_L, (inv_prefix _ _ Hinv), (take_S_r _ _ _ Hlook).
      rewrite list_to_set_app_L. simpl.
      by rewrite (right_id_L ∅ (∪)), (comm_L (∪)).
    + intros key' b. rewrite lookup_insert. case_decide; [congruence|].
      apply (inv_true _ _ Hinv).
  - (* the step being left was completed before *)
    assert (key ∈ dom (completedSteps s)) as Hin.
    { rewrite (inv_prefix _ _ Hinv), elem_of_list_to_set.
      rewrite (elem_of_take_ids _ _ _ Hnd Hlook). lia. }
    pose proof Hin as Hsome. apply elem_of_dom in Hsome.
    split; simpl; unfold keys_length, completed_is_prefix; simpl;
      rewrite ?(map_size_insert_Some _ _ _ Hsome).
    + lia.
    + apply (inv_size _ _ Hinv).
    + apply (inv_last _ _ Hinv).
    + rewrite dom_insert_L, <- (inv_prefix _ _ Hinv).
      by apply subseteq_union_1_L, singleton_subseteq_l.
    + intros key' b. rewrite lookup_insert. case_decide; [congruence|].
      apply (inv_true _ _ Hinv).
Qed.

Lemma wizard_inv_goToPrevStep s :
  wizard_inv steps s → wizard_inv steps (goToPrevStep s).
Proof.
  intros Hinv. unfold goToPrevStep.
  destruct (Z.gtb_spec (currentStep s) 0) as [Hgt|_]; [|done].
  destruct Hinv as [Hcur ? ? ? ?]. split; simpl; try done. lia.
Qed.

Lemma wizard_inv_goToStep s k :
  wizard_inv steps s → wizard_inv steps (goToStep steps k s).
Proof.
  intros Hinv. unfold goToStep.
  destruct (_ && _) eqn:Hguard; [|done].
  destruct Hinv as [Hcur ? ? ? ?]. split; simpl; try done.
  apply andb_prop in Hguard as [Hbounds Hcount].
  apply andb_prop in Hbounds as [Hlo Hhi].
  apply orb_prop in Hcount. lia.
Qed.

Lemma wizard_inv_updateFormData s newData :
  wizard_inv steps s → wizard_inv steps (updateFormData newData s).
Proof. intros [? ? ? ? ?]. by split. Qed.

Lemma wizard_inv_resetWizard s newInitialData :
  wizard_inv steps (resetWizard newInitialData s).
Proof. apply (wizard_inv_initial newInitialData). Qed.

Lemma wizard_inv_perform a s :
  NoDup (step_ids steps) → wizard_inv steps s → wizard_inv steps (perform steps a s).
Proof.
  intros Hnd Hinv. destruct a; simpl.
  - by apply wizard_inv_goToNextStep.
  - by apply wizard_inv_goToPrevStep.
  - by apply wizard_inv_goToStep.
  - by apply wizard_inv_updateFormData.
  - apply wizard_inv_resetWizard.
Qed.

Lemma wizard_inv_reachable initialData s :
  NoDup (step_ids steps) → reachable steps initialData s → wizard_inv steps s.
Proof.
  intros Hnd Hreach. induction Hreach as [|a s _ IH].
  - apply wizard_inv_initial.
  - by apply wizard_inv_perform.
Qed.

(** A run of actions from the initial state is reachable. *)
Lemma reachable_run initialData acts s :
  reachable steps initialData s → reachable steps initialData (run steps acts s).
Proof.
  revert s. induction acts as [|a acts IH]; intros s Hs; simpl; [done|].
  apply IH. by constructor.
Qed.

End WizardProperties.

Section WizardClaims.

Import WizardContext WizardSpec.

Variable steps : list StepDescriptor.

Implicit Types (s : WizardState) (k : Z).

(** C1. In every state of a wizard mounted over a step list with distinct ids,
    [goToStep k] moves [currentStep] to [k] (and touches nothing else) when
    [k] is in bounds and step [k] is completed or [k] is the number of
    completed steps; in every other case it returns the state unchanged. *)
Theorem goToStep_jumps_iff_allowed initialData s k :
  NoDup (step_ids steps) → reachable steps initialData s →
  (jump_allowed steps s k → goToStep steps k s = jumped k s)
  ∧ (¬ jump_allowed steps s k → goToStep steps k s = s).
Proof.
  intros Hnd Hreach.
  pose proof (wizard_inv_reachable steps initialData s Hnd Hreach) as Hinv.
  unfold jump_allowed, goToStep, jumped.
  destruct (Z.geb_spec k 0) as [Hlo|Hlo]; simpl;
    [|split; [lia | done]].
  destruct (Z.ltb_spec k (totalSteps steps)) as [Hhi|Hhi]; simpl;
    [|split; [lia | done]].
  pose proof (completed_iff_lt steps s k Hnd Hinv (conj Hlo Hhi)) as Hcompl.
  destruct (Z.geb_spec (keys_length (completedSteps s)) k) as [Hge|Hlt]; simpl.
  - split; [done|]. intros Hnot. exfalso. apply Hnot. split; [lia|].
    destruct (decide (k = keys_length (completedSteps s))); [by right|].
    left. apply Hcompl. lia.
  - destruct (Z.eqb_spec k (keys_length (completedSteps s))) as [?|_]; [lia|].
    split; [|done]. intros [_ [Hc|Heq]]; [|lia]. apply Hcompl in Hc. lia.
Qed.

(** C2, in the form the code satisfies. Over distinct step ids, in every reachable state
    [completedSteps] is exactly the set of ids of its first
    [size completedSteps] steps; an operation other than the reset either
    leaves the set as it is or adds the id of the next step in order; and the
    guard of [goToStep] (count test or next-step test) agrees with
    "step [k] is completed or [k] is the next step" for every [k] in bounds. *)
Theorem completedSteps_is_ordered_prefix initialData s :
  NoDup (step_ids steps) → reachable steps initialData s →
  completed_is_prefix steps s
  ∧ (∀ a, is_reset a = false →
       completedSteps (perform steps a s) = completedSteps s
       ∨ ∃ key, step_ids steps !! size (completedSteps s) = Some key
                ∧ completedSteps s !! key = None
                ∧ completedSteps (perform steps a s) = <[key := true]> (completedSteps s))
  ∧ (∀ k, 0 ≤ k < totalSteps steps →
       count_test s k || (k =? keys_length (completedSteps s))
       = completed steps s k || (k =? keys_length (completedSteps s))).
Proof.
  intros Hnd Hreach.
  pose proof (wizard_inv_reachable steps initialData s Hnd Hreach) as Hinv.
  split; [apply (inv_prefix _ _ Hinv)|]. split.
  - intros a Ha. destruct a; simpl in *; try discriminate.
    + (* goToNextStep *)
      unfold goToNextStep.
      destruct (Z.ltb_spec (currentStep s) (totalSteps steps - 1)) as [Hlt|_];
        [|by left].
      pose proof (inv_current _ _ Hinv) as Hcur.
      assert (0 ≤ currentStep s < totalSteps steps) as Hk by lia.
      destruct (step_id_in_bounds steps _ Hk) as [key Hkey].
      pose proof Hkey as Hlook. apply step_id_lookup in Hlook; [|lia].
      unfold currentStepId. rewrite Hkey. simpl.
      destruct (completedSteps s !! key) as [b|] eqn:Hb.
      * left. apply insert_id. by rewrite (inv_true _ _ Hinv key b Hb) in Hb.
      * right. exists key. split; [|done].
        apply not_elem_of_dom in Hb.
        rewrite (inv_prefix _ _ Hinv), elem_of_list_to_set in Hb.
        rewrite (elem_of_take_ids steps _ _ _ Hnd Hlook) in Hb.
        unfold keys_length in Hcur.
        replace (size (completedSteps s)) with (Z.to_nat (currentStep s)) by lia.
        done.
    + left. unfold goToPrevStep. by destruct (_ >? _).
    + left. unfold goToStep. by destruct (_ && _).
    + by left.
  - intros k Hk.
    pose proof (completed_iff_lt steps s k Hnd Hinv Hk) as Hcompl.
    unfold count_test.
    destruct (Z.eqb_spec k (keys_length (completedSteps s))) as [?|Hne];
      [by rewrite !orb_true_r|].
    rewrite !orb_false_r.
    destruct (Z.geb_spec (keys_length (completedSteps s)) k) as [Hge|Hlt].
    + symmetry. apply Hcompl. lia.
    + destruct (completed steps s k) eqn:Hc; [|done].
      destruct Hcompl as [Hc' _]. specialize (Hc' eq_refl). lia.
Qed.

(** C4, in the form the code satisfies. Mounting the provider never fails, whatever the step
    list: it returns the state with [currentStep = 0], the given form data
    and no completed step. *)
Theorem WizardProvider_initial_state initialData :
  ∃ v, WizardProvider steps initialData = Returned v
       ∧ currentStep (state v) = 0
       ∧ formData (state v) = initialData
       ∧ completedSteps (state v) = ∅.
Proof. eexists. split; [reflexivity|]. by repeat split. Qed.

(** C5. From a state whose [currentStep] is a valid index [i]: on the last
    step [goToNextStep] changes nothing; otherwise it records the id of step
    [i], the step being left, in [completedSteps], moves to [i + 1] and keeps
    the form data. *)
Theorem goToNextStep_completes_step_left s :
  0 ≤ currentStep s < totalSteps steps →
  (currentStep s = totalSteps steps - 1 → goToNextStep steps s = s)
  ∧ (currentStep s ≠ totalSteps steps - 1 →
       ∃ step, nth_step steps (currentStep s) = Some step
         ∧ goToNextStep steps s
           = {| currentStep := currentStep s + 1;
                formData := formData s;
                completedSteps := <[id step := true]> (completedSteps s) |}
         ∧ isStepCompleted steps (goToNextStep steps s) (currentStep s) = true).
Proof.
  intros Hk. unfold goToNextStep. split.
  - intros ->. by rewrite Z.ltb_irrefl.
  - intros Hne.
    destruct (Z.ltb_spec (currentStep s) (totalSteps steps - 1)) as [_|?]; [|lia].
    destruct (nth_step_in_bounds steps _ Hk) as [step Hstep].
    exists step. split; [done|].
    unfold currentStepId, isStepCompleted, get_truthy, step_id. rewrite Hstep. simpl.
    split; [done|]. by rewrite lookup_insert_eq.
Qed.

(** C6. In every state of a wizard mounted over a non-empty step list,
    [currentStep] is an index of the list: at least 0 and at most
    [length steps - 1]. *)
Theorem currentStep_always_in_bounds initialData s :
  steps ≠ [] → reachable steps initialData s →
  0 ≤ currentStep s ≤ totalSteps steps - 1.
Proof.
  intros Hne Hreach.
  assert (0 < totalSteps steps) as Hpos.
  { unfold totalSteps. destruct steps; [done | simpl; lia]. }
  induction Hreach as [|a s _ IH]; simpl; [lia|].
  destruct a; simpl.
  - unfold goToNextStep.
    destruct (Z.ltb_spec (currentStep s) (totalSteps steps - 1)); simpl; lia.
  - unfold goToPrevStep.
    destruct (Z.gtb_spec (currentStep s) 0); simpl; lia.
  - unfold goToStep. destruct (_ && _) eqn:Hguard; simpl; [|lia].
    apply andb_prop in Hguard as [Hbounds _].
    apply andb_prop in Hbounds as [Hlo Hhi]. lia.
  - lia.
  - lia.
Qed.

End WizardClaims.

(** ** The caption generator's wizard as a concrete instance *)

Section CaptionWizard.

Import WizardContext WizardSpec CaptionGenerator.

Lemma WIZARD_STEPS_distinct : NoDup (step_ids WIZARD_STEPS).
Proof. apply (bool_decide_unpack _). by vm_compute. Qed.

Lemma reachable_from_mount acts :
  reachable WIZARD_STEPS initialData (run WIZARD_STEPS acts (initialState initialData)).
Proof. apply reachable_run. constructor. Qed.

(** Next, next, previous: steps 0 and 1 are completed and the user stands on
    step 1. Step 2 is the next step and can be jumped to; step 4 cannot. *)
Lemma goToStep_jumps_iff_allowed_witness :
  let s := run WIZARD_STEPS [GoToNextStep; GoToNextStep; GoToPrevStep]
               (initialState initialData) in
  NoDup (step_ids WIZARD_STEPS)
  ∧ reachable WIZARD_STEPS initialData s
  ∧ goToStep WIZARD_STEPS 0 s = jumped 0 s
  ∧ goToStep WIZARD_STEPS 2 s = jumped 2 s
  ∧ goToStep WIZARD_STEPS 4 s = s.
Proof.
  intros s.
  pose proof WIZARD_STEPS_distinct as Hnd.
  pose proof (reachable_from_mount [GoToNextStep; GoToNextStep; GoToPrevStep]) as Hr.
  split; [exact Hnd|]. split; [exact Hr|].
  split; [|split].
  - apply (goToStep_jumps_iff_allowed WIZARD_STEPS initialData s 0 Hnd Hr).
    split; [unfold totalSteps; simpl; lia | left; reflexivity].
  - apply (goToStep_jumps_iff_allowed WIZARD_STEPS initialData s 2 Hnd Hr).
    split; [unfold totalSteps; simpl; lia | right; reflexivity].
  - apply (goToStep_jumps_iff_allowed WIZARD_STEPS initialData s 4 Hnd Hr).
    intros [_ [Hc|Hc]]; vm_compute in Hc; discriminate.
Defined.

(** C2, as stated, fails on the count test: in the state the wizard mounts
    in, [Object.keys(completedSteps).length >= 0] holds although step 0 is
    not in [completedSteps]. *)
Lemma count_test_is_not_membership :
  let s := initialState initialData in
  NoDup (step_ids WIZARD_STEPS)
  ∧ reachable WIZARD_STEPS initialData s
  ∧ count_test s 0 = true
  ∧ completed WIZARD_STEPS s 0 = false.
Proof.
  intros s. split; [exact WIZARD_STEPS_distinct|].
  split; [constructor|]. by split.
Qed.

Lemma completedSteps_is_ordered_prefix_witness :
  let s := run WIZARD_STEPS [GoToNextStep; GoToNextStep; GoToStep 0; GoToNextStep]
               (initialState initialData) in
  NoDup (step_ids WIZARD_STEPS)
  ∧ reachable WIZARD_STEPS initialData s
  ∧ completed_is_prefix WIZARD_STEPS s
  ∧ completedSteps s = {[ "upload_media" := true; "select_niche" := true ]}.
Proof.
  intros s.
  pose proof WIZARD_STEPS_distinct as Hnd.
  pose proof (reachable_from_mount
                [GoToNextStep; GoToNextStep; GoToStep 0; GoToNextStep]) as Hr.
  split; [exact Hnd|]. split; [exact Hr|]. split.
  - apply (completedSteps_is_ordered_prefix WIZARD_STEPS initialData s Hnd Hr).
  - reflexivity.
Defined.

(** C4, as stated, fails on the empty step list: the provider mounts and
    hands out a context value, it does not throw. *)
Lemma WizardProvider_empty_steps_returns :
  WizardProvider [] initialData
  = Returned {| state := initialState initialData;
                value_totalSteps := 0;
                value_isFirstStep := true;
                value_isLastStep := false;
                value_currentStepId := None |}
  ∧ ∀ msg, WizardProvider [] initialData ≠ Thrown msg.
Proof. split; [reflexivity | discriminate]. Qed.

Lemma goToNextStep_completes_step_left_witness :
  let s := initialState initialData in
  let last := run WIZARD_STEPS
                  [GoToNextStep; GoToNextStep; GoToNextStep; GoToNextStep; GoToNextStep]
                  s in
  0 ≤ currentStep s < totalSteps WIZARD_STEPS
  ∧ currentStep last = totalSteps WIZARD_STEPS - 1
  ∧ goToNextStep WIZARD_STEPS last = last
  ∧ ∃ step, nth_step WIZARD_STEPS 0 = Some step
      ∧ goToNextStep WIZARD_STEPS s
        = {| currentStep := 1;
             formData := initialData;
             completedSteps := <[id step := true]> ∅ |}
      ∧ isStepCompleted WIZARD_STEPS (goToNextStep WIZARD_STEPS s) 0 = true.
Proof.
  intros s last.
  assert (0 ≤ currentStep s < totalSteps WIZARD_STEPS) as Hk
    by (unfold totalSteps; simpl; lia).
  assert (0 ≤ currentStep last < totalSteps WIZARD_STEPS) as Hlast
    by (unfold totalSteps; simpl; lia).
  split; [exact Hk|]. split; [reflexivity|]. split.
  - by apply (goToNextStep_completes_step_left WIZARD_STEPS last Hlast).
  - apply (goToNextStep_completes_step_left WIZARD_STEPS s Hk).
    unfold totalSteps. simpl. lia.
Defined.

Lemma currentStep_always_in_bounds_witness :
  let s := run WIZARD_STEPS
               [GoToNextStep; GoToStep 7; GoToPrevStep; GoToPrevStep; GoToStep (-1)]
               (initialState initialData) in
  WIZARD_STEPS ≠ []
  ∧ reachable WIZARD_STEPS initialData s
  ∧ 0 ≤ currentStep s ≤ totalSteps WIZARD_STEPS - 1.
Proof.
  intros s.
  pose proof (reachable_from_mount
                [GoToNextStep; GoToStep 7; GoToPrevStep; GoToPrevStep; GoToStep (-1)])
    as Hr.
  assert (WIZARD_STEPS ≠ []) as Hne by discriminate.
  split; [exact Hne|]. split; [exact Hr|].
  apply (currentStep_always_in_bounds WIZARD_STEPS initialData s Hne Hr).
Defined.

(** Outside the invariant the count test and membership part ways: with a
    [completedSteps] that holds only the last id, no operation sequence
    leading there, [goToStep 0] jumps although step 0 is neither completed
    nor the next step. The statement of C1 rests on [reachable]. *)
Example goToStep_off_invariant :
  let s := {| currentStep := 1;
              formData := initialData;
              completedSteps := {[ "tone" := true; "goal" := true ]} |} in
  completed WIZARD_STEPS s 0 = false
  ∧ keys_length (completedSteps s) = 2
  ∧ goToStep WIZARD_STEPS 0 s = jumped 0 s.
Proof. intros s. split; [reflexivity|]. split; reflexivity. Qed.

End CaptionWizard.

(** * Properties of the media editor *)

Section NumberProperties.

Import Floats Number.

Implicit Types (x y : float) (a b : spec_float).

(** ** Comparing numbers *)











(** A canvas dimension is the integer part of the number assigned, as long
    as that fits. *)
Lemma canvas_dimension_integer_part default x :
  0 ≤ integer_part x ≤ 2147483647 →
  canvas_dimension default x = integer_part x.
Proof.
  intros Hfit. unfold canvas_dimension.
  rewrite Z.mod_small by lia.
  by destruct (Z.leb_spec (integer_part x) 2147483647) as [_|?]; [|lia].
Qed.

End NumberProperties.

Section EditorProperties.

Import WizardContext UploadMediaStep EditorSpec.
Import PrimFloat.PrimFloatNotations.

Implicit Types (st : State) (d : dom).

(** ** Cropping *)

(** The size test of [handleCropEnd] returns before any setter. *)
Lemma handleCropEnd_returns_early d st cs ce :
  cropStart st = Some cs → cropEnd st = Some ce → small_gesture cs ce →
  handleCropEnd d st = st.
Proof.
  intros Hcs Hce Hsmall. unfold handleCropEnd. rewrite Hcs, Hce.
  destruct (isCropping st); [|done].
  destruct Hsmall as [Hx|Hy].
  - by rewrite Hx.
  - rewrite Hy. by rewrite orb_true_r.
Qed.

(** C7, in the form the code satisfies. A crop gesture whose start and end
    differ by less than 0.05 on the x axis or on the y axis, the difference
    being the one the numbers of the language give and 0.05 the number
    nearest to it, is discarded: [handleCropEnd] returns the state it was
    given, so no crop preview is produced. *)
Theorem handleCropEnd_discards_small_gesture d st cs ce :
  cropStart st = Some cs → cropEnd st = Some ce → small_gesture cs ce →
  handleCropEnd d st = st
  ∧ cropPreview (handleCropEnd d st) = cropPreview st.
Proof.
  intros Hcs Hce Hsmall.
  assert (handleCropEnd d st = st) as Hsame
    by (by apply (handleCropEnd_returns_early d st cs ce)).
  split; [exact Hsame | by rewrite Hsame].
Qed.

(** The same at the pointer: releasing the mouse, or leaving the preview,
    after a small crop gesture changes nothing. *)
Lemma onMouseUp_discards_small_gesture d st cs ce :
  isDraggingText st = false → isRotatingText st = false →
  cropStart st = Some cs → cropEnd st = Some ce → small_gesture cs ce →
  onMouseUp d st = st ∧ onMouseLeave d st = st.
Proof.
  intros Hdrag Hrot Hcs Hce Hsmall. unfold onMouseUp, onMouseLeave.
  rewrite Hdrag, Hrot.
  rewrite (handleCropEnd_returns_early d st cs ce Hcs Hce Hsmall).
  by destruct (isCropping st).
Qed.



(** ** Rotation *)

Lemma rotation_rotateMedia direction st :
  rotation (rotateMedia direction st)
  = if String.eqb direction "clockwise"
    then Z.rem (rotation st + 90) 360
    else Z.rem (rotation st - 90 + 360) 360.
Proof. reflexivity. Qed.

(** One clockwise quarter turn, without the remainder. *)
Lemma quarter_turn_rem r :
  0 ≤ r < 360 →
  (Z.rem (r + 90) 360 = r + 90 ∨ Z.rem (r + 90) 360 = r - 270)
  ∧ 0 ≤ Z.rem (r + 90) 360 < 360.
Proof.
  intros Hr. destruct (Z.lt_ge_cases r 270) as [Hlt|Hge].
  - rewrite Z.rem_small by lia. lia.
  - rewrite Z.rem_mod_nonneg by lia.
    replace (r + 90) with (r - 270 + 1 * 360) by lia.
    rewrite Z_mod_plus_full, Z.mod_small by lia. lia.
Qed.

(** A quarter turn keeps the rotation in [0, 360). *)
Lemma normalized_rotateMedia direction st :
  normalized (rotation st) → normalized (rotation (rotateMedia direction st)).
Proof.
  unfold normalized. intros Hr. rewrite rotation_rotateMedia.
  destruct (String.eqb direction "clockwise");
    rewrite Z.rem_mod_nonneg by lia; apply Z.mod_pos_bound; lia.
Qed.

(** C9. From a rotation normalised to [0, 360), a clockwise rotation yields
    [(rotation + 90) mod 360] and any other direction
    [(rotation - 90) mod 360]; the result is normalised again and is what the
    form data records; four clockwise rotations restore the rotation. *)
Theorem rotateMedia_quarter_turns direction st :
  normalized (rotation st) →
  rotation (rotateMedia "clockwise" st) = (rotation st + 90) mod 360
  ∧ (direction ≠ "clockwise" →
       rotation (rotateMedia direction st) = (rotation st - 90) mod 360)
  ∧ normalized (rotation (rotateMedia direction st))
  ∧ formData (wizard (rotateMedia direction st)) !! "rotation"
    = Some (VInt (rotation (rotateMedia direction st)))
  ∧ rotation (Nat.iter 4 (rotateMedia "clockwise") st) = rotation st.
Proof.
  unfold normalized. intros Hr.
  assert (∀ r, 0 ≤ r → Z.rem r 360 = r mod 360) as Hrem
    by (intros r Hr0; apply Z.rem_mod_nonneg; lia).
  split; [|split; [|split; [|split]]].
  - rewrite rotation_rotateMedia. simpl. apply Hrem. lia.
  - intros Hdir. rewrite rotation_rotateMedia.
    destruct (String.eqb_spec direction "clockwise") as [?|_]; [done|].
    rewrite Hrem by lia.
    replace (rotation st - 90 + 360) with (rotation st - 90 + 1 * 360) by lia.
    apply Z_mod_plus_full.
  - rewrite rotation_rotateMedia.
    destruct (String.eqb direction "clockwise"); rewrite Hrem by lia;
      apply Z.mod_pos_bound; lia.
  - unfold rotateMedia, updateFormData. simpl.
    apply lookup_union_Some_l, lookup_singleton_eq.
  - change (Nat.iter 4 (rotateMedia "clockwise") st)
      with (rotateMedia "clockwise" (rotateMedia "clockwise"
             (rotateMedia "clockwise" (rotateMedia "clockwise" st)))).
    rewrite !rotation_rotateMedia. simpl.
    pose proof (quarter_turn_rem (rotation st) Hr) as [H1 B1].
    pose proof (quarter_turn_rem _ B1) as [H2 B2].
    pose proof (quarter_turn_rem _ B2) as [H3 B3].
    pose proof (quarter_turn_rem _ B3) as [H4 B4].
    lia.
Qed.

End EditorProperties.

(** ** Sessions of the editor *)

Section EditorSessions.

Import WizardContext UploadMediaStep EditorSpec.

Variable steps : list StepDescriptor.
Variable Math_atan2 : Q → Q → Q.
Variable Math_PI : Q.

Implicit Types (st : State) (d : dom) (ev : event) (fd : gmap string value).

Local Abbreviation handle := (handle steps Math_atan2 Math_PI).
Local Abbreviation editor_reachable := (editor_reachable steps Math_atan2 Math_PI).

(** Split on every test a handler makes. *)
Local Ltac handler_cases :=
  repeat match goal with
         | |- context [match ?x with _ => _ end] => destruct x eqn:?
         end.

(** Read a cell through the setters applied after it, leaving the contents
    of the cells alone. *)
Local Ltac read_cells :=
  cbn [isDragging error cameraError showEditor filter rotation cropStart cropEnd
       isCropping cropPreview isAddingText textOverlay textPosition editHistory
       currentEdit isDraggingText dragStartPos showEmojiPicker textRotation
       isRotatingText wizard objectURLs
       setIsDragging setError setCameraError setShowEditor setFilter setRotation
       setCropStart setCropEnd setIsCropping setCropPreview setIsAddingText
       setTextOverlay setTextPosition setEditHistory setCurrentEdit
       setIsDraggingText setDragStartPos setShowEmojiPicker setTextRotation
       setIsRotatingText setWizard setObjectURLs
       UploadMediaStep.updateFormData UploadMediaStep.goToNextStep] in *.

(** Unfold the handlers, the effect apart, down to setters and tests. *)
Local Ltac open_handlers :=
  unfold UploadMediaStep.handle, handleDragEnter, handleDragLeave, handleDragOver,
    handleDrop, handleFileInputChange, handleFileSelection, removeMedia,
    createTextOnlyCaption, onMouseDown, onMouseMove, onMouseUp,
    onMouseLeave, handleCropStart, handleCropMove, handleCropEnd, applyCrop,
    cancelCrop, toggleCropMode, toggleTextMode, handleTextChange,
    handleTextDragStart, handleTextDragMove, handleTextDragEnd,
    handleTextPositionChange, positionTextAtBottom, handleRotationStart,
    handleRotationMove, handleRotationEnd, applyFilter, rotateMedia, resetEdits,
    saveEdits, onEmojiClick, resetTextRotation, revokeMediaUrl, createObjectURL.

(** ** Interaction modes *)

Lemma toggleCropMode_modes st :
  isCropping (toggleCropMode st) = negb (isCropping st)
  ∧ isAddingText (toggleCropMode st) = (isCropping st && isAddingText st).
Proof. unfold toggleCropMode. by destruct (isCropping st). Qed.

Lemma toggleTextMode_modes st :
  isAddingText (toggleTextMode st) = negb (isAddingText st)
  ∧ isCropping (toggleTextMode st) = (isAddingText st && isCropping st).
Proof.
  unfold toggleTextMode.
  destruct (isAddingText st); [|done]. by destruct (String.eqb _ _).
Qed.

(** The effect restores editing cells only; the mode flags are not among
    them. *)
Lemma restoreEditingState_modes st :
  isCropping (restoreEditingState st) = isCropping st
  ∧ isAddingText (restoreEditingState st) = isAddingText st.
Proof.
  unfold restoreEditingState. destruct (truthy_field _ _); [|done].
  generalize (formData (wizard st)). intros fd.
  assert (∀ s, isCropping (restoreFilter fd s) = isCropping s
               ∧ isAddingText (restoreFilter fd s) = isAddingText s) as H1
    by (intros s; unfold restoreFilter; handler_cases; by split).
  assert (∀ s, isCropping (restoreRotation fd s) = isCropping s
               ∧ isAddingText (restoreRotation fd s) = isAddingText s) as H2
    by (intros s; unfold restoreRotation; handler_cases; by split).
  assert (∀ s, isCropping (restoreTextOverlay fd s) = isCropping s
               ∧ isAddingText (restoreTextOverlay fd s) = isAddingText s) as H3
    by (intros s; unfold restoreTextOverlay; handler_cases; by split).
  assert (∀ s, isCropping (restoreTextPosition fd s) = isCropping s
               ∧ isAddingText (restoreTextPosition fd s) = isAddingText s) as H4
    by (intros s; unfold restoreTextPosition; handler_cases; by split).
  assert (∀ s, isCropping (restoreTextRotation fd s) = isCropping s
               ∧ isAddingText (restoreTextRotation fd s) = isAddingText s) as H5
    by (intros s; unfold restoreTextRotation; handler_cases; by split).
  split.
  - by rewrite (proj1 (H5 _)), (proj1 (H4 _)), (proj1 (H3 _)), (proj1 (H2 _)),
      (proj1 (H1 _)).
  - by rewrite (proj2 (H5 _)), (proj2 (H4 _)), (proj2 (H3 _)), (proj2 (H2 _)),
      (proj2 (H1 _)).
Qed.

Lemma modes_exclusive_handle d ev st :
  modes_exclusive st → modes_exclusive (handle d ev st).
Proof.
  unfold modes_exclusive. intros Hex [Hc Ht]. apply Hex. revert Hc Ht.
  destruct ev;
    try (open_handlers; handler_cases; read_cells; intros;
         first [ discriminate | split; congruence ]).
  unfold UploadMediaStep.handle.
  destruct (restoreEditingState_modes st) as [-> ->]. by split.
Qed.

(** C10. In every state of the editor, whatever the user did since it was
    mounted, the crop mode and the text mode are not both active; turning
    either mode on turns the other off. *)
Theorem modes_never_both_active w urls st :
  editor_reachable w urls st →
  modes_exclusive st
  ∧ (isCropping (toggleCropMode st) = true → isAddingText (toggleCropMode st) = false)
  ∧ (isAddingText (toggleTextMode st) = true → isCropping (toggleTextMode st) = false).
Proof.
  intros Hreach. split; [|split].
  - induction Hreach as [|d ev st _ IH].
    + intros [Hc _]. discriminate Hc.
    + by apply modes_exclusive_handle.
  - destruct (toggleCropMode_modes st) as [-> ->].
    by destruct (isCropping st).
  - destruct (toggleTextMode_modes st) as [-> ->].
    by destruct (isAddingText st).
Qed.

(** ** Object URLs *)

(** Reading a key after [updateFormData]: the patch first, then what was
    there. *)
Lemma lookup_patch (patch fd : gmap string value) key :
  (patch ∪ fd) !! key
  = match patch !! key with
    | Some v => Some v
    | None => fd !! key
    end.
Proof.
  destruct (patch !! key) as [v|] eqn:Hp.
  - by apply lookup_union_Some_l.
  - by apply lookup_union_r.
Qed.

(** Look a key up in an object literal. *)
Local Ltac read_patch :=
  rewrite ?lookup_patch;
  repeat first [ rewrite lookup_insert_eq
               | rewrite lookup_insert_ne by discriminate
               | rewrite lookup_singleton_eq
               | rewrite lookup_singleton_ne by discriminate ].

Lemma revokeMediaUrl_held st h :
  held_handle st = Some h →
  revokeMediaUrl st
  = setObjectURLs {| live := live (objectURLs st) ∖ {[h]};
                     next_handle := next_handle (objectURLs st) |} st.
Proof.
  unfold held_handle, revokeMediaUrl.
  destruct (formData (wizard st) !! "mediaUrl") as [[| | | | |[h'|]| | |]|];
    try discriminate.
  by intros [= ->].
Qed.

(** Removing the media releases the object URL the form data held. *)
Lemma removeMedia_releases st h :
  held_handle st = Some h →
  released h (removeMedia st) ∧ held_handle (removeMedia st) = None.
Proof.
  intros Hheld. unfold released, removeMedia.
  rewrite (revokeMediaUrl_held st h Hheld). read_cells. split.
  - apply not_elem_of_difference. right. by apply elem_of_singleton.
  - unfold held_handle. read_cells. unfold WizardContext.updateFormData.
    cbn [formData]. by read_patch.
Qed.

(** Applying a crop releases it too, and installs the preview. *)
Lemma applyCrop_releases st h preview :
  held_handle st = Some h → cropPreview st = Some preview →
  released h (applyCrop st)
  ∧ formData (wizard (applyCrop st)) !! "mediaUrl" = Some (VUrl preview).
Proof.
  intros Hheld Hpreview. unfold released, applyCrop. rewrite Hpreview.
  rewrite (revokeMediaUrl_held st h Hheld). read_cells. split.
  - apply not_elem_of_difference. right. by apply elem_of_singleton.
  - unfold WizardContext.updateFormData. cbn [formData]. by read_patch.
Qed.

(** Accepting a new file does not: the handle held before stays alive while
    the form data moves on to a fresh one. *)
Lemma handleFileSelection_keeps_previous st h file :
  held_handle st = Some h → h ∈ live (objectURLs st) →
  file_type file ∈ supportedTypes → file_size file ≤ MAX_FILE_SIZE →
  h ∈ live (objectURLs (handleFileSelection file st))
  ∧ held_handle (handleFileSelection file st) = Some (next_handle (objectURLs st)).
Proof.
  intros Hheld Hlive Htype Hsize. unfold handleFileSelection.
  rewrite (bool_decide_eq_true_2 _ Htype). cbn [negb].
  destruct (Z.gtb_spec (file_size file) MAX_FILE_SIZE) as [?|_]; [lia|].
  unfold createObjectURL. read_cells. split.
  - apply elem_of_union. by right.
  - unfold held_handle. read_cells. unfold WizardContext.updateFormData.
    cbn [formData]. by read_patch.
Qed.

(** Nor does the text-only shortcut, which clears [mediaUrl]. *)
Lemma createTextOnlyCaption_keeps_previous st h :
  held_handle st = Some h → h ∈ live (objectURLs st) →
  h ∈ live (objectURLs (createTextOnlyCaption steps st))
  ∧ held_handle (createTextOnlyCaption steps st) = None.
Proof.
  intros Hheld Hlive. unfold createTextOnlyCaption. read_cells.
  split; [done|]. unfold held_handle. read_cells.
  unfold WizardContext.goToNextStep, WizardContext.updateFormData.
  destruct (_ <? _); cbn [formData currentStep]; by read_patch.
Qed.

(** ** Rotation stays normalised *)

Lemma rotation_field_ok_patch (patch fd : gmap string value) :
  rotation_field_ok patch → rotation_field_ok fd → rotation_field_ok (patch ∪ fd).
Proof.
  unfold rotation_field_ok. rewrite lookup_patch.
  by destruct (patch !! "rotation").
Qed.

Lemma formData_goToNextStep (w : WizardState) :
  formData (WizardContext.goToNextStep steps w) = formData w.
Proof. unfold WizardContext.goToNextStep. by destruct (_ <? _). Qed.

Lemma restoreEditingState_rotation st :
  normalized (rotation st) → rotation_field_ok (formData (wizard st)) →
  normalized (rotation (restoreEditingState st))
  ∧ wizard (restoreEditingState st) = wizard st.
Proof.
  intros Hrot Hfield. unfold restoreEditingState.
  destruct (truthy_field _ _); [|done].
  revert Hfield. generalize (formData (wizard st)). intros fd Hfield.
  assert (∀ s, rotation (restoreFilter fd s) = rotation s
               ∧ wizard (restoreFilter fd s) = wizard s) as H1
    by (intros s; unfold restoreFilter; handler_cases; by split).
  assert (∀ s, normalized (rotation s) →
               normalized (rotation (restoreRotation fd s))
               ∧ wizard (restoreRotation fd s) = wizard s) as H2.
  { intros s Hs. unfold restoreRotation, rotation_field_ok in *.
    destruct (fd !! "rotation") as [[]|]; try done.
    by destruct (_ =? _). }
  assert (∀ s, rotation (restoreTextOverlay fd s) = rotation s
               ∧ wizard (restoreTextOverlay fd s) = wizard s) as H3
    by (intros s; unfold restoreTextOverlay; handler_cases; by split).
  assert (∀ s, rotation (restoreTextPosition fd s) = rotation s
               ∧ wizard (restoreTextPosition fd s) = wizard s) as H4
    by (intros s; unfold restoreTextPosition; handler_cases; by split).
  assert (∀ s, rotation (restoreTextRotation fd s) = rotation s
               ∧ wizard (restoreTextRotation fd s) = wizard s) as H5
    by (intros s; unfold restoreTextRotation; handler_cases; by split).
  rewrite (proj1 (H5 _)), (proj2 (H5 _)), (proj1 (H4 _)), (proj2 (H4 _)),
    (proj1 (H3 _)), (proj2 (H3 _)).
  destruct (H2 (restoreFilter fd (setShowEditor true st))) as [Hn Hw].
  { by rewrite (proj1 (H1 _)). }
  split; [done|]. by rewrite Hw, (proj2 (H1 _)).
Qed.

Lemma rotation_normalized_handle d ev st :
  normalized (rotation st) ∧ rotation_field_ok (formData (wizard st)) →
  normalized (rotation (handle d ev st))
  ∧ rotation_field_ok (formData (wizard (handle d ev st))).
Proof.
  intros [Hrot Hfield].
  assert (normalized 0) as Hzero by (unfold normalized; lia).
  assert (∀ direction, normalized (rotation (rotateMedia direction st))) as Hturn
    by (intros direction; by apply normalized_rotateMedia).
  destruct ev;
    try (open_handlers; handler_cases; read_cells;
         rewrite ?formData_goToNextStep;
         unfold WizardContext.updateFormData; cbn [formData];
         (split;
          [ done || apply Hturn
          | first [ done
                  | apply rotation_field_ok_patch;
                    [ unfold rotation_field_ok; read_patch; done || apply Hturn
                    | done ] ] ])).
  - (* rotateMedia *)
    split; [apply Hturn|].
    unfold UploadMediaStep.handle, rotateMedia. read_cells.
    unfold WizardContext.updateFormData. cbn [formData].
    apply rotation_field_ok_patch; [|done].
    unfold rotation_field_ok. read_patch. exact (Hturn direction).
  - (* the effect *)
    unfold UploadMediaStep.handle.
    destruct (restoreEditingState_rotation st Hrot Hfield) as [Hn ->].
    by split.
Qed.

(** From a mount whose form data has no [rotation] yet, or a normalised one,
    every state the user can reach has a normalised [rotation]. *)
Lemma rotation_normalized_reachable w urls st :
  rotation_field_ok (formData w) → editor_reachable w urls st →
  normalized (rotation st) ∧ rotation_field_ok (formData (wizard st)).
Proof.
  intros Hfield Hreach. induction Hreach as [|d ev st _ IH].
  - split; [unfold normalized; simpl; lia | done].
  - by apply rotation_normalized_handle.
Qed.

(** In the caption generator the form data starts without a [rotation]. *)
Corollary rotation_normalized_from_initialData urls st :
  editor_reachable
    (WizardContext.initialState CaptionGenerator.initialData) urls st →
  normalized (rotation st).
Proof.
  intros Hreach.
  by apply (rotation_normalized_reachable
              (WizardContext.initialState CaptionGenerator.initialData) urls st).
Qed.

End EditorSessions.

(** ** The sample session *)

Section SampleSession.

Import WizardContext UploadMediaStep EditorSpec CaptionGenerator Scenario.

Lemma editor_reachable_interact steps Math_atan2 Math_PI w urls evs st :
  editor_reachable steps Math_atan2 Math_PI w urls st →
  editor_reachable steps Math_atan2 Math_PI w urls
    (interact steps Math_atan2 Math_PI evs st).
Proof.
  revert st. induction evs as [|[d ev] evs IH]; intros st Hst; simpl; [done|].
  apply IH. by constructor.
Qed.

Lemma editor_reachable_play evs st :
  editor_reachable WIZARD_STEPS atan2_flat pi_approx
    (initialState initialData) {| live := ∅; next_handle := 0 |} st →
  editor_reachable WIZARD_STEPS atan2_flat pi_approx
    (initialState initialData) {| live := ∅; next_handle := 0 |} (play evs st).
Proof. apply editor_reachable_interact. Qed.

Lemma editor_reachable_selected :
  editor_reachable WIZARD_STEPS atan2_flat pi_approx
    (initialState initialData) {| live := ∅; next_handle := 0 |} selected.
Proof. apply editor_reachable_play. constructor. Qed.

(** C3 fails on [handleFileSelection]: after the photo, picking the drawing
    installs the fresh handle 1 in [mediaUrl] and leaves handle 0, the one
    held before, alive in the document, where [removeMedia] and [applyCrop]
    revoke it. *)
Theorem handleFileSelection_leaks_previous_url :
  let st := handleFileSelection drawing selected in
  held_handle selected = Some 0%nat
  ∧ held_handle st = Some 1%nat
  ∧ 0%nat ∈ live (objectURLs st)
  ∧ released 0 (removeMedia selected)
  ∧ released 0 (applyCrop (handleCropEnd page crop_dragged)).
Proof.
  assert (held_handle selected = Some 0%nat) as Hheld by reflexivity.
  assert (0%nat ∈ live (objectURLs selected)) as Hlive
    by (apply elem_of_union; left; by apply elem_of_singleton).
  split; [exact Hheld|].
  destruct (handleFileSelection_keeps_previous selected 0 drawing Hheld Hlive)
    as [Hkept Hnew].
  { apply (bool_decide_unpack _). reflexivity. }
  { unfold MAX_FILE_SIZE. simpl. lia. }
  split; [exact Hnew|]. split; [exact Hkept|]. split.
  - by apply removeMedia_releases.
  - eapply applyCrop_releases; reflexivity.
Qed.

(** A drag of 20 pixels across the sample page is discarded; so is a drag of
    50 pixels, 5% of the width, because 0.15 - 0.1 is below 0.05 as the
    numbers subtract. *)
Lemma handleCropEnd_discards_small_gesture_witness :
  let cs := Corner (Number.of_Q 0.1) (Number.of_Q 0.2) in
  let ce := Corner (Number.of_Q 0.12) (Number.of_Q 0.8) in
  let ce' := Corner (Number.of_Q 0.15) (Number.of_Q 0.8) in
  cropStart crop_nudged = Some cs ∧ cropEnd crop_nudged = Some ce
  ∧ small_gesture cs ce
  ∧ handleCropEnd page crop_nudged = crop_nudged
  ∧ cropPreview (handleCropEnd page crop_nudged) = None
  ∧ cropStart crop_five_percent = Some cs ∧ cropEnd crop_five_percent = Some ce'
  ∧ small_gesture cs ce'
  ∧ handleCropEnd page crop_five_percent = crop_five_percent.
Proof.
  intros cs ce ce'.
  assert (cropStart crop_nudged = Some cs) as Hcs by reflexivity.
  assert (cropEnd crop_nudged = Some ce) as Hce by reflexivity.
  assert (small_gesture cs ce) as Hsmall by (left; reflexivity).
  assert (cropStart crop_five_percent = Some cs) as Hcs' by reflexivity.
  assert (cropEnd crop_five_percent = Some ce') as Hce' by reflexivity.
  assert (small_gesture cs ce') as Hsmall' by (left; reflexivity).
  destruct (handleCropEnd_discards_small_gesture page crop_nudged cs ce
              Hcs Hce Hsmall) as [Hsame Hpreview].
  destruct (handleCropEnd_discards_small_gesture page crop_five_percent cs ce'
              Hcs' Hce' Hsmall') as [Hsame' _].
  split; [exact Hcs|]. split; [exact Hce|]. split; [exact Hsmall|].
  split; [exact Hsame|]. split; [by rewrite Hpreview|].
  split; [exact Hcs'|]. split; [exact Hce'|]. split; [exact Hsmall'|].
  exact Hsame'.
Defined.

(** C7, as stated, fails at the threshold. On the strip the corners 0.0125
    and 0.0625, taken as the numbers they are, differ by less than 0.05; the
    difference the language computes is the number nearest to 0.05, which is
    not below it, and [handleCropEnd] produces a preview. *)
Lemma crop_threshold_is_rounded :
  let cs := Corner (Number.of_Q 0.0125) (Number.of_Q 0.2) in
  let ce := Corner (Number.of_Q 0.0625) (Number.of_Q 0.8) in
  cropStart crop_on_strip = Some cs ∧ cropEnd crop_on_strip = Some ce
  ∧ (Qabs (Number.value (cx ce) - Number.value (cx cs)) < 0.05)%Q
  ∧ (Qabs (Number.value (cy ce) - Number.value (cy cs)) >= 0.05)%Q
  ∧ PrimFloat.sub (cx ce) (cx cs) = minSize
  ∧ ∃ r, cropPreview (handleCropEnd strip crop_on_strip) = Some (DataURL r).
Proof.
  intros cs ce. do 2 (split; [reflexivity|]).
  split; [reflexivity|]. split; [by vm_compute|]. split; [reflexivity|].
  eexists. reflexivity.
Qed.



Lemma rotateMedia_quarter_turns_witness :
  normalized (rotation turned)
  ∧ rotation turned = 270
  ∧ rotation (rotateMedia "clockwise" turned) = 0
  ∧ rotation (rotateMedia "counter-clockwise" turned) = 180
  ∧ formData (wizard (rotateMedia "clockwise" turned)) !! "rotation" = Some (VInt 0)
  ∧ rotation (Nat.iter 4 (rotateMedia "clockwise") turned) = 270.
Proof.
  assert (rotation turned = 270) as Hturned by reflexivity.
  assert (normalized (rotation turned)) as Hnorm
    by (unfold normalized; rewrite Hturned; lia).
  destruct (rotateMedia_quarter_turns "counter-clockwise" turned Hnorm)
    as (Hcw & Hccw & _ & _ & Hfour).
  destruct (rotateMedia_quarter_turns "clockwise" turned Hnorm)
    as (_ & _ & _ & Hfield & _).
  split; [exact Hnorm|]. split; [exact Hturned|].
  split; [rewrite Hcw, Hturned; reflexivity|].
  split; [rewrite Hccw, Hturned; [reflexivity | discriminate]|].
  split; [rewrite Hfield, Hcw, Hturned; reflexivity|].
  rewrite Hfour. exact Hturned.
Defined.

Lemma modes_never_both_active_witness :
  let st := play [ClickText; TextChange "sunset"; ClickCrop] selected in
  editor_reachable WIZARD_STEPS atan2_flat pi_approx
    (initialState initialData) {| live := ∅; next_handle := 0 |} st
  ∧ modes_exclusive st
  ∧ isCropping st = true ∧ isAddingText st = false
  ∧ isAddingText (toggleTextMode st) = true
  ∧ isCropping (toggleTextMode st) = false.
Proof.
  intros st.
  pose proof (editor_reachable_play [ClickText; TextChange "sunset"; ClickCrop]
                selected editor_reachable_selected) as Hreach.
  fold st in Hreach.
  destruct (modes_never_both_active WIZARD_STEPS atan2_flat pi_approx _ _ st Hreach)
    as (Hex & _ & Htext).
  split; [exact Hreach|]. split; [exact Hex|].
  split; [reflexivity|]. split; [reflexivity|].
  split; [reflexivity|]. by apply Htext.
Defined.

End SampleSession.

(** * Further properties of the wizard context *)

Section WizardRuns.

Import WizardContext WizardSpec RunSpec.

Variable steps : list StepDescriptor.

Implicit Types (s : WizardState) (k : Z) (a : action).

(** ** Completion is kept *)

Lemma isStepCompleted_perform a s k :
  is_reset a = false →
  isStepCompleted steps s k = true →
  isStepCompleted steps (perform steps a s) k = true.
Proof.
  intros Ha Hk. destruct a; simpl in *; try discriminate.
  - unfold goToNextStep. destruct (_ <? _); [|done].
    unfold isStepCompleted, get_truthy in *. simpl.
    rewrite lookup_insert.
    by destruct (decide (property_key (currentStepId steps s) = _)).
  - unfold goToPrevStep. by destruct (_ >? _).
  - unfold goToStep. by destruct (_ && _).
  - done.
Qed.

(** X1. A step that is completed stays completed through any sequence of
    operations without a reset: going back, jumping and editing the form data
    never un-complete it. *)
Theorem completed_stays_completed acts s k :
  no_reset acts = true →
  isStepCompleted steps s k = true →
  isStepCompleted steps (run steps acts s) k = true.
Proof.
  revert s. induction acts as [|a acts IH]; intros s Hacts Hk; simpl; [done|].
  simpl in Hacts. apply andb_prop in Hacts as [Ha Hacts].
  apply negb_true_iff in Ha.
  apply IH; [done|]. by apply isStepCompleted_perform.
Qed.

(** ** Form data and navigation *)

(** X2. [updateFormData] merges: two updates in a row are one update with the
    later patch laid over the earlier; a key of the patch reads the patch's
    value and any other key reads what it read before. *)
Theorem updateFormData_merges (a b : gmap string value) s key :
  updateFormData b (updateFormData a s) = updateFormData (b ∪ a) s
  ∧ formData (updateFormData a s) !! key
    = match a !! key with
      | Some v => Some v
      | None => formData s !! key
      end.
Proof.
  split.
  - unfold updateFormData. simpl. by rewrite (assoc_L (∪)).
  - apply lookup_patch.
Qed.

(** X3. Moving between steps and editing the form data do not see each
    other: a navigation reads no form data and leaves it as it is, so it
    commutes with [updateFormData]. *)
Theorem navigation_ignores_formData a (d : gmap string value) s :
  is_navigation a = true →
  perform steps a (updateFormData d s) = updateFormData d (perform steps a s)
  ∧ formData (perform steps a s) = formData s.
Proof.
  intros Ha. destruct a; simpl in *; try discriminate.
  - unfold goToNextStep, updateFormData, currentStepId. simpl.
    by destruct (_ <? _).
  - unfold goToPrevStep, updateFormData. simpl. by destruct (_ >? _).
  - unfold goToStep, updateFormData. simpl. by destruct (_ && _).
Qed.

(** ** What the invariant says about the step circles *)

(** X4. Over distinct step ids, in every reachable state each step before
    the current one is completed; a step in bounds is reported completed
    exactly when its index is below the number of completed steps or its id
    is a name every object inherits from [Object.prototype]; and when there
    is a step at all, at most [length steps - 1] steps are ever completed, so
    the last step is reported completed only for such an id. *)
Theorem steps_behind_are_completed initialData s :
  NoDup (step_ids steps) → reachable steps initialData s →
  (∀ k, 0 ≤ k < currentStep s → isStepCompleted steps s k = true)
  ∧ (∀ k, 0 ≤ k < totalSteps steps →
       isStepCompleted steps s k = true
       ↔ k < keys_length (completedSteps s) ∨ inherited steps k)
  ∧ (steps ≠ [] →
       keys_length (completedSteps s) ≤ totalSteps steps - 1
       ∧ (¬ inherited steps (totalSteps steps - 1) →
          isStepCompleted steps s (totalSteps steps - 1) = false)).
Proof.
  intros Hnd Hreach.
  pose proof (wizard_inv_reachable steps initialData s Hnd Hreach) as Hinv.
  pose proof (inv_current _ _ Hinv) as Hcur.
  pose proof (inv_size _ _ Hinv) as Hsize.
  split; [|split].
  - intros k Hk.
    apply (isStepCompleted_iff steps s k Hnd Hinv);
      unfold keys_length, totalSteps in *; [lia | left; lia].
  - intros k Hk. by apply isStepCompleted_iff.
  - intros Hne. pose proof (inv_last _ _ Hinv Hne) as Hlast.
    split; [unfold keys_length, totalSteps in *; lia|].
    intros Hown.
    destruct (isStepCompleted steps s (totalSteps steps - 1)) eqn:Hc; [|done].
    apply (isStepCompleted_iff steps s _ Hnd Hinv) in Hc as [Hlt|Hinh];
      unfold keys_length, totalSteps in *; [lia | done | lia].
Qed.

(** X5. Outside the step list [isStepCompleted] answers false, as long as no
    step is named "undefined": there it reads the key that JavaScript makes
    of the missing id. *)
Theorem isStepCompleted_out_of_range initialData s k :
  NoDup (step_ids steps) → "undefined" ∉ step_ids steps →
  reachable steps initialData s →
  k < 0 ∨ totalSteps steps ≤ k →
  isStepCompleted steps s k = false.
Proof.
  intros Hnd Hname Hreach Hk.
  pose proof (wizard_inv_reachable steps initialData s Hnd Hreach) as Hinv.
  assert (step_id steps k = None) as Hid.
  { unfold step_id, nth_step, totalSteps in *.
    destruct (Z.ltb_spec k 0); [done|].
    rewrite lookup_ge_None_2; [done | lia]. }
  unfold isStepCompleted, get_truthy. rewrite Hid. simpl.
  assert (completedSteps s !! "undefined" = None) as ->; [|reflexivity].
  apply not_elem_of_dom. rewrite (inv_prefix _ _ Hinv), elem_of_list_to_set.
  intros Hin. apply Hname. apply elem_of_take in Hin as (i & Hi & _).
  apply list_elem_of_lookup. by exists i.
Qed.

End WizardRuns.

(** * The consumers of the context: step indicator, layout, page *)

Section WizardConsumers.

Import WizardContext WizardSpec RunSpec.

Variable steps : list StepDescriptor.

Implicit Types (s : WizardState) (k index : Z).

(** The position is an index of a non-empty step list, whatever was done. *)
Lemma position_in_range initialData s :
  steps ≠ [] → reachable steps initialData s →
  0 ≤ currentStep s < totalSteps steps.
Proof.
  intros Hne Hreach.
  assert (0 < totalSteps steps) as Hpos
    by (unfold totalSteps; destruct steps; [done | simpl; lia]).
  induction Hreach as [|a s _ IH]; [simpl; lia|].
  destruct a; simpl; try lia.
  - unfold goToNextStep. destruct (Z.ltb_spec (currentStep s) (totalSteps steps - 1));
      simpl; lia.
  - unfold goToPrevStep. destruct (Z.gtb_spec (currentStep s) 0); simpl; lia.
  - unfold goToStep. destruct (_ && _) eqn:Hguard; simpl; [|lia].
    apply andb_prop in Hguard as [Hbounds _].
    apply andb_prop in Hbounds as [Hlo Hhi]. lia.
Qed.

(** X6. What a click on a circle of the step indicator does: over distinct
    ids and in every reachable state, clicking the circle of a step does what
    [goToStep] does; a circle is clickable exactly when its index is at most
    the number of completed steps or its id is a name every object inherits
    from [Object.prototype]; the circle of the current step always is; and a
    circle above the number of completed steps, which only such an id
    enables, does nothing when clicked. *)
Theorem indicator_click_is_goToStep initialData s index :
  NoDup (step_ids steps) → reachable steps initialData s →
  0 ≤ index < totalSteps steps →
  StepIndicator.onClick steps index s = goToStep steps index s
  ∧ (StepIndicator.canClick steps s index = true
     ↔ index ≤ keys_length (completedSteps s) ∨ inherited steps index)
  ∧ (index = currentStep s → StepIndicator.canClick steps s index = true)
  ∧ (keys_length (completedSteps s) < index →
     StepIndicator.onClick steps index s = s).
Proof.
  intros Hnd Hreach Hindex.
  pose proof (wizard_inv_reachable steps initialData s Hnd Hreach) as Hinv.
  pose proof (isStepCompleted_iff steps s index Hnd Hinv Hindex) as Hcompl.
  pose proof (inv_current _ _ Hinv) as Hcur.
  assert (StepIndicator.canClick steps s index = true
          ↔ index ≤ keys_length (completedSteps s) ∨ inherited steps index)
    as Hclick.
  { unfold StepIndicator.canClick. rewrite orb_true_iff, Hcompl, Z.eqb_eq.
    split.
    - intros [[Hlt|Hinh]|Heq]; [left; lia | by right | left; lia].
    - intros [Hle|Hinh]; [|left; by right].
      destruct (decide (index = keys_length (completedSteps s))); [by right|].
      left. left. lia. }
  assert (keys_length (completedSteps s) < index → goToStep steps index s = s)
    as Habove.
  { intros Hgt. unfold goToStep.
    destruct (Z.geb_spec (keys_length (completedSteps s)) index); [lia|].
    destruct (Z.eqb_spec index (keys_length (completedSteps s))); [lia|].
    by rewrite andb_false_r. }
  split; [|split; [exact Hclick|split]].
  - unfold StepIndicator.onClick.
    destruct (StepIndicator.canClick steps s index) eqn:Hc; [done|].
    symmetry. apply Habove.
    destruct (Z.le_gt_cases index (keys_length (completedSteps s))) as [Hle|?];
      [|lia].
    assert (false = true) by (apply Hclick; by left). done.
  - intros ->. apply Hclick. left. lia.
  - intros Hgt. unfold StepIndicator.onClick.
    destruct (StepIndicator.canClick steps s index); [by apply Habove | done].
Qed.

(** X7. The Next/Finish button of the layout is gated by the validator. On
    a valid position: if the validator rejects the current step the click
    changes nothing; if it accepts and a step follows, the current step is
    marked completed and the wizard moves one step on, without calling
    [onComplete]; on the last step the wizard stays and the host, if it
    passed [onComplete], receives the form data as it is. *)
Theorem clickNext_is_gated validateStep onComplete s :
  0 ≤ currentStep s < totalSteps steps →
  (WizardLayout.canProceed validateStep s = false →
     WizardLayout.clickNext steps validateStep onComplete s = (s, None))
  ∧ (WizardLayout.canProceed validateStep s = true →
     currentStep s < totalSteps steps - 1 →
     WizardLayout.clickNext steps validateStep onComplete s
       = (goToNextStep steps s, None)
     ∧ currentStep (goToNextStep steps s) = currentStep s + 1
     ∧ isStepCompleted steps (goToNextStep steps s) (currentStep s) = true)
  ∧ (WizardLayout.canProceed validateStep s = true →
     currentStep s = totalSteps steps - 1 →
     WizardLayout.clickNext steps validateStep onComplete s
       = (s, if onComplete then Some (formData s) else None)).
Proof.
  intros Hpos. unfold WizardLayout.clickNext, WizardLayout.handleNext,
    WizardLayout.handleComplete, isLastStep.
  split; [|split].
  - by intros ->.
  - intros -> Hlt. simpl.
    destruct (Z.eqb_spec (currentStep s) (totalSteps steps - 1)); [lia|].
    unfold goToNextStep.
    destruct (Z.ltb_spec (currentStep s) (totalSteps steps - 1)); [|lia].
    simpl. split; [done|]. split; [done|].
    unfold isStepCompleted, get_truthy, currentStepId. simpl.
    by rewrite lookup_insert_eq.
  - intros -> Hlast. simpl. rewrite Hlast, Z.eqb_refl.
    by rewrite andb_true_r.
Qed.

(** X8. The page always has a step to render: over a non-empty step list
    whose descriptors carry their components, in every reachable state
    [ActiveStepContent] finds the descriptor of the current step, the one
    [currentStepId] names, and never falls back to "Step not found". *)
Theorem ActiveStepContent_found initialData s :
  steps ≠ [] → reachable steps initialData s →
  ∃ step, CaptionGeneratorPage.ActiveStepContent steps s = Some step
          ∧ currentStepId steps s = Some (id step).
Proof.
  intros Hne Hreach.
  pose proof (position_in_range initialData s Hne Hreach) as Hpos.
  destruct (nth_step_in_bounds steps (currentStep s) Hpos) as [step Hstep].
  exists step. unfold CaptionGeneratorPage.ActiveStepContent, currentStepId, step_id.
  by rewrite Hstep.
Qed.

End WizardConsumers.

(** * Further properties of the media editor *)

Section EditorHandlers.

Import WizardContext UploadMediaStep EditorSpec SessionSpec.

Implicit Types (st : State) (d : dom) (fd : gmap string value).

(** Read a cell through the setters applied after it. *)
Local Ltac cells :=
  cbn [isDragging error cameraError showEditor filter rotation cropStart cropEnd
       isCropping cropPreview isAddingText textOverlay textPosition editHistory
       currentEdit isDraggingText dragStartPos showEmojiPicker textRotation
       isRotatingText wizard objectURLs
       setIsDragging setError setCameraError setShowEditor setFilter setRotation
       setCropStart setCropEnd setIsCropping setCropPreview setIsAddingText
       setTextOverlay setTextPosition setEditHistory setCurrentEdit
       setIsDraggingText setDragStartPos setShowEmojiPicker setTextRotation
       setIsRotatingText setWizard setObjectURLs
       UploadMediaStep.updateFormData UploadMediaStep.goToNextStep
       WizardContext.updateFormData formData currentStep completedSteps] in *.

(** Look a key up in an object literal laid over the form data. *)
Local Ltac literal :=
  rewrite ?lookup_patch;
  repeat first [ rewrite lookup_insert_eq
               | rewrite lookup_insert_ne by discriminate
               | rewrite lookup_singleton_eq
               | rewrite lookup_singleton_ne by discriminate ];
  cbv beta iota.

(** ** Accepting and rejecting a file *)

(** X9. A file of an unsupported type, or of more than 50 MB, is rejected:
    the only cell that changes is [error], which receives a message; the
    form data, the object URLs and every editing cell stay as they were. *)
Theorem handleFileSelection_rejects file st :
  file_type file ∉ supportedTypes ∨ MAX_FILE_SIZE < file_size file →
  ∃ msg, msg ≠ "" ∧ handleFileSelection file st = setError msg st.
Proof.
  intros Hbad. unfold handleFileSelection.
  destruct (bool_decide (file_type file ∈ supportedTypes)) eqn:Htype; simpl.
  - destruct Hbad as [Hbad|Hbig].
    + by apply bool_decide_eq_true in Htype.
    + destruct (Z.gtb_spec (file_size file) MAX_FILE_SIZE); [|lia].
      eexists. split; [|reflexivity]. discriminate.
  - eexists. split; [|reflexivity]. discriminate.
Qed.

(** X10. A file of a supported type and of at most 50 MB (the bound
    included) is accepted: [mediaUrl] holds a fresh object URL, which is the
    one handle added to the live ones, [media] is the file, [mediaType] is
    "image" for the four image types and "video" for the others, the error
    is cleared, the editor is shown with its editing cells at their defaults,
    and every form-data key the handler does not write keeps its value. *)
Theorem handleFileSelection_accepts file st :
  file_type file ∈ supportedTypes → file_size file ≤ MAX_FILE_SIZE →
  let st' := handleFileSelection file st in
  let fd' := formData (wizard st') in
  fd' !! "mediaUrl" = Some (VUrl (ObjectURL (next_handle (objectURLs st))))
  ∧ fd' !! "media" = Some (VFile file)
  ∧ fd' !! "mediaType"
    = Some (VStr (if bool_decide (file_type file ∈ image_types)
                  then "image" else "video"))
  ∧ live (objectURLs st') = {[next_handle (objectURLs st)]} ∪ live (objectURLs st)
  ∧ error st' = "" ∧ showEditor st' = true
  ∧ filter st' = "none" ∧ rotation st' = 0
  ∧ isCropping st' = false ∧ isAddingText st' = false
  ∧ textOverlay st' = "" ∧ textPosition st' = defaultTextPosition
  ∧ (∀ key, key ∉ media_keys → fd' !! key = formData (wizard st) !! key)
  ∧ currentStep (wizard st') = currentStep (wizard st)
  ∧ completedSteps (wizard st') = completedSteps (wizard st).
Proof.
  intros Htype Hsize. unfold handleFileSelection.
  rewrite (bool_decide_eq_true_2 _ Htype). cbn [negb].
  destruct (Z.gtb_spec (file_size file) MAX_FILE_SIZE) as [?|_]; [lia|].
  unfold createObjectURL. cells.
  split; [by literal|]. split; [by literal|]. split.
  { literal. f_equal. f_equal.
    unfold supportedTypes in Htype. unfold image_types.
    repeat (apply elem_of_cons in Htype as [->|Htype]; [reflexivity|]).
    by apply elem_of_nil in Htype. }
  repeat (split; [reflexivity|]).
  split; [|done].
  intros key Hkey. rewrite lookup_patch.
  assert ((({[ "media" := VFile file;
               "mediaUrl" := VUrl (ObjectURL (next_handle (objectURLs st)));
               "mediaType" := VStr (if String.prefix "image/" (file_type file)
                                    then "image" else "video");
               "filter" := VStr "none";
               "rotation" := VInt 0;
               "textOverlay" := VStr "";
               "textPosition" := VPoint defaultTextPosition;
               "filtersApplied" := VStrs [] ]} : gmap string value) !! key) = None)
    as ->; [|done].
  unfold media_keys in Hkey.
  repeat (rewrite lookup_insert_ne
            by (intros <-; apply Hkey; repeat constructor)).
  apply lookup_singleton_ne. intros <-. apply Hkey. repeat constructor.
Qed.

(** ** Cropping *)

(** X11. [handleCropEnd] touches one cell only: it either returns the state
    it was given or installs a [data:] URL as the pending preview; and when
    the media is not an image (a video, text only, nothing) it always does
    the former, whatever the gesture. *)
Theorem handleCropEnd_only_sets_data_preview d st :
  (handleCropEnd d st = st
   ∨ ∃ r, handleCropEnd d st = setCropPreview (Some (DataURL r)) st)
  ∧ (field_is (formData (wizard st)) "mediaType" "image" = false →
     handleCropEnd d st = st).
Proof.
  unfold handleCropEnd, crop_to_data_url.
  destruct (isCropping st); [|by split; [left|]].
  destruct (cropStart st) as [cs|]; [|by split; [left|]].
  destruct (cropEnd st) as [ce|]; [|by split; [left|]].
  destruct (_ || _); [by split; [left|]|].
  destruct (field_is _ _ _); [|by split; [left|]].
  split; [|done].
  destruct (imageRef d) as [img|]; [|by left].
  destruct (formData (wizard st) !! "media") as [[]|]; try by left.
  right. by eexists.
Qed.


(** X13. Resetting the edits does not remove the media: every form-data key
    outside the six it writes keeps its value, so the held URL and the
    verdict of [isStepComplete] are what they were; the object URLs, the
    editor's visibility and a pending crop preview are left alone; and the
    editing cells are back at their defaults with both modes off. *)
Theorem resetEdits_keeps_media st :
  let st' := resetEdits st in
  (∀ key, key ∉ edit_keys →
     formData (wizard st') !! key = formData (wizard st) !! key)
  ∧ held_handle st' = held_handle st
  ∧ isStepComplete st' = isStepComplete st
  ∧ objectURLs st' = objectURLs st
  ∧ showEditor st' = showEditor st
  ∧ cropPreview st' = cropPreview st
  ∧ filter st' = "none" ∧ rotation st' = 0 ∧ textRotation st' = 0%Q
  ∧ textOverlay st' = "" ∧ textPosition st' = defaultTextPosition
  ∧ isCropping st' = false ∧ isAddingText st' = false.
Proof.
  unfold resetEdits. cells.
  assert (∀ key, key ∉ edit_keys →
            (({[ "filter" := VStr "none";
                 "rotation" := VInt 0;
                 "textRotation" := VNum 0;
                 "textOverlay" := VStr "";
                 "textPosition" := VPoint defaultTextPosition;
                 "filtersApplied" := VStrs [] ]} : gmap string value)
             ∪ formData (wizard st)) !! key = formData (wizard st) !! key) as Hframe.
  { intros key Hkey. rewrite lookup_patch. unfold edit_keys in Hkey.
    repeat (rewrite lookup_insert_ne
              by (intros <-; apply Hkey; repeat constructor)).
    rewrite lookup_singleton_ne; [done|].
    intros <-. apply Hkey. repeat constructor. }
  assert (∀ key, key ∈ ["mediaUrl"; "isTextOnly"] → key ∉ edit_keys) as Hout.
  { intros key Hin Hedit. unfold edit_keys in Hedit.
    repeat (apply elem_of_cons in Hin as [->|Hin];
            [by repeat (apply elem_of_cons in Hedit as [?|Hedit]; [discriminate|]);
                apply elem_of_nil in Hedit|]).
    by apply elem_of_nil in Hin. }
  split; [exact Hframe|]. split; [|split].
  - unfold held_handle. cells.
    rewrite Hframe; [done|]. apply Hout. repeat constructor.
  - unfold isStepComplete, truthy_field. cells.
    rewrite !Hframe; [done | |]; apply Hout; repeat constructor.
  - done.
Qed.

(** Each step of the effect, on a field of the shape it expects. *)
Lemma restoreFilter_string fd s v :
  fd !! "filter" = Some (VStr v) →
  restoreFilter fd s = if String.eqb v "" then s else setFilter v s.
Proof. intros H. unfold restoreFilter. by rewrite H. Qed.

Lemma restoreRotation_int fd s n :
  fd !! "rotation" = Some (VInt n) →
  restoreRotation fd s = if n =? 0 then s else setRotation n s.
Proof. intros H. unfold restoreRotation. by rewrite H. Qed.

Lemma restoreTextOverlay_string fd s v :
  fd !! "textOverlay" = Some (VStr v) →
  restoreTextOverlay fd s = if String.eqb v "" then s else setTextOverlay v s.
Proof. intros H. unfold restoreTextOverlay. by rewrite H. Qed.

Lemma restoreTextPosition_point fd s p :
  fd !! "textPosition" = Some (VPoint p) →
  restoreTextPosition fd s = setTextPosition p s.
Proof. intros H. unfold restoreTextPosition. by rewrite H. Qed.

Lemma restoreTextRotation_num fd s q :
  fd !! "textRotation" = Some (VNum q) →
  restoreTextRotation fd s = setTextRotation q s.
Proof. intros H. unfold restoreTextRotation. by rewrite H. Qed.

(** X14. Saved edits come back: once [saveEdits] has written the editing
    cells to the form data, a fresh mount of the step over that form data
    followed by its effect shows the editor with the filter, the rotation,
    the text, its position and its rotation that were saved. This needs media
    in the form data (the effect restores nothing without it) and a filter
    other than the empty string. *)
Theorem saved_edits_survive_remount st urls :
  truthy_field (formData (wizard st)) "mediaUrl" = true →
  filter st ≠ "" →
  let st' := restoreEditingState (mount (wizard (saveEdits st)) urls) in
  same_edits st st' ∧ showEditor st' = true.
Proof.
  intros Hmedia Hfilter. unfold saveEdits, restoreEditingState, mount. cells.
  set (fd := ({[ "editsSaved" := VBool true;
                 "textOverlay" := VStr (textOverlay st);
                 "textPosition" := VPoint (textPosition st);
                 "textRotation" := VNum (textRotation st);
                 "filter" := VStr (filter st);
                 "rotation" := VInt (rotation st) ]} : gmap string value)
              ∪ formData (wizard st)).
  assert (truthy_field fd "mediaUrl" = true) as ->.
  { unfold truthy_field, fd in *. by literal. }
  assert (fd !! "filter" = Some (VStr (filter st))) as Hf by (unfold fd; by literal).
  assert (fd !! "rotation" = Some (VInt (rotation st))) as Hr
    by (unfold fd; by literal).
  assert (fd !! "textOverlay" = Some (VStr (textOverlay st))) as Ho
    by (unfold fd; by literal).
  assert (fd !! "textPosition" = Some (VPoint (textPosition st))) as Hp
    by (unfold fd; by literal).
  assert (fd !! "textRotation" = Some (VNum (textRotation st))) as Ht
    by (unfold fd; by literal).
  clearbody fd.
  rewrite (restoreFilter_string fd _ _ Hf), (restoreRotation_int fd _ _ Hr),
    (restoreTextOverlay_string fd _ _ Ho), (restoreTextPosition_point fd _ _ Hp),
    (restoreTextRotation_num fd _ _ Ht).
  unfold same_edits.
  destruct (String.eqb_spec (filter st) "") as [?|_]; [done|].
  destruct (Z.eqb_spec (rotation st) 0) as [Hr0|_];
    destruct (String.eqb_spec (textOverlay st) "") as [Ho0|_]; cells;
    by rewrite ?Hr0, ?Ho0.
Qed.

(** ** Rotation and filters *)

(** X15. The two rotation buttons undo each other: from a rotation in
    [0, 360), a clockwise turn followed by a turn in any other direction
    restores the rotation, and so does the opposite order. *)
Theorem rotateMedia_directions_cancel direction st :
  normalized (rotation st) → direction ≠ "clockwise" →
  rotation (rotateMedia direction (rotateMedia "clockwise" st)) = rotation st
  ∧ rotation (rotateMedia "clockwise" (rotateMedia direction st)) = rotation st.
Proof.
  unfold normalized. intros Hr Hdir.
  rewrite !rotation_rotateMedia.
  destruct (String.eqb_spec direction "clockwise") as [?|_]; [done|].
  change (String.eqb "clockwise" "clockwise") with true. cbv iota.
  destruct (quarter_turn_rem (rotation st) Hr) as [Hcw Bcw].
  assert (∀ r, 0 ≤ r < 360 →
            (Z.rem (r - 90 + 360) 360 = r - 90 + 360 ∨ Z.rem (r - 90 + 360) 360 = r - 90)
            ∧ 0 ≤ Z.rem (r - 90 + 360) 360 < 360) as Hback.
  { intros r Hr'. destruct (Z.lt_ge_cases r 90).
    - rewrite Z.rem_small by lia. lia.
    - rewrite Z.rem_mod_nonneg by lia.
      replace (r - 90 + 360) with (r - 90 + 1 * 360) by lia.
      rewrite Z_mod_plus_full, Z.mod_small by lia. lia. }
  destruct (Hback (rotation st) Hr) as [Hccw Bccw].
  destruct (Hback _ Bcw) as [H1 B1].
  destruct (quarter_turn_rem _ Bccw) as [H2 B2].
  lia.
Qed.

End EditorHandlers.

(** * Invariants of an editing session *)

Section EditorInvariants.

Import WizardContext UploadMediaStep EditorSpec SessionSpec.

Variable steps : list StepDescriptor.
Variable Math_atan2 : Q → Q → Q.
Variable Math_PI : Q.

Implicit Types (st : State) (d : dom) (ev : event) (fd : gmap string value).

Local Abbreviation handle := (UploadMediaStep.handle steps Math_atan2 Math_PI).
Local Abbreviation editor_reachable :=
  (UploadMediaStep.editor_reachable steps Math_atan2 Math_PI).

Local Ltac cases :=
  repeat match goal with
         | |- context [match ?x with _ => _ end] => destruct x eqn:?
         end.

Local Ltac cells :=
  cbn [isDragging error cameraError showEditor filter rotation cropStart cropEnd
       isCropping cropPreview isAddingText textOverlay textPosition editHistory
       currentEdit isDraggingText dragStartPos showEmojiPicker textRotation
       isRotatingText wizard objectURLs
       setIsDragging setError setCameraError setShowEditor setFilter setRotation
       setCropStart setCropEnd setIsCropping setCropPreview setIsAddingText
       setTextOverlay setTextPosition setEditHistory setCurrentEdit
       setIsDraggingText setDragStartPos setShowEmojiPicker setTextRotation
       setIsRotatingText setWizard setObjectURLs
       UploadMediaStep.updateFormData UploadMediaStep.goToNextStep
       WizardContext.updateFormData formData currentStep completedSteps] in *.

Local Ltac literal :=
  rewrite ?lookup_patch;
  repeat first [ rewrite lookup_insert_eq
               | rewrite lookup_insert_ne by discriminate
               | rewrite lookup_singleton_eq
               | rewrite lookup_singleton_ne by discriminate ];
  cbv beta iota.

(** Every handler but the effect, down to setters and tests. *)
Local Ltac handlers :=
  unfold UploadMediaStep.handle, handleDragEnter, handleDragLeave, handleDragOver,
    handleDrop, handleFileInputChange, handleFileSelection, removeMedia,
    createTextOnlyCaption, onMouseDown, onMouseMove, onMouseUp,
    onMouseLeave, handleCropStart, handleCropMove, handleCropEnd, applyCrop,
    cancelCrop, toggleCropMode, toggleTextMode, handleTextChange,
    handleTextDragStart, handleTextDragMove, handleTextDragEnd,
    handleTextPositionChange, positionTextAtBottom, handleRotationStart,
    handleRotationMove, handleRotationEnd, applyFilter, rotateMedia, resetEdits,
    saveEdits, onEmojiClick, resetTextRotation, revokeMediaUrl, createObjectURL,
    crop_to_data_url.

(** What the effect cannot change: any reading of the state that the six
    setters it uses leave alone. *)
Lemma restoreEditingState_frame {A} (P : State → A) :
  (∀ v s, P (setShowEditor v s) = P s) →
  (∀ v s, P (setFilter v s) = P s) →
  (∀ v s, P (setRotation v s) = P s) →
  (∀ v s, P (setTextOverlay v s) = P s) →
  (∀ v s, P (setTextPosition v s) = P s) →
  (∀ v s, P (setTextRotation v s) = P s) →
  ∀ st, P (restoreEditingState st) = P st.
Proof.
  intros Hshow Hfilter Hrot Htext Hpos Htrot st.
  unfold restoreEditingState. destruct (truthy_field _ _); [|done].
  generalize (formData (wizard st)). intros fd.
  assert (∀ s, P (restoreTextRotation fd s) = P s) as H5
    by (intros s; unfold restoreTextRotation; cases; by rewrite ?Htrot).
  assert (∀ s, P (restoreTextPosition fd s) = P s) as H4
    by (intros s; unfold restoreTextPosition; cases; by rewrite ?Hpos).
  assert (∀ s, P (restoreTextOverlay fd s) = P s) as H3
    by (intros s; unfold restoreTextOverlay; cases; by rewrite ?Htext).
  assert (∀ s, P (restoreRotation fd s) = P s) as H2
    by (intros s; unfold restoreRotation; cases; by rewrite ?Hrot).
  assert (∀ s, P (restoreFilter fd s) = P s) as H1
    by (intros s; unfold restoreFilter; cases; by rewrite ?Hfilter).
  by rewrite H5, H4, H3, H2, H1, Hshow.
Qed.

Lemma restoreEditingState_wizard st : wizard (restoreEditingState st) = wizard st.
Proof. by apply (restoreEditingState_frame wizard). Qed.

Lemma restoreEditingState_objectURLs st :
  objectURLs (restoreEditingState st) = objectURLs st.
Proof. by apply (restoreEditingState_frame objectURLs). Qed.

Lemma restoreEditingState_cropPreview st :
  cropPreview (restoreEditingState st) = cropPreview st.
Proof. by apply (restoreEditingState_frame cropPreview). Qed.

(** ** The held URL is alive *)

Lemma held_is_live_handle d ev st :
  held_is_live st ∧ preview_is_data st →
  held_is_live (handle d ev st) ∧ preview_is_data (handle d ev st).
Proof.
  intros [Hlive Hdata].
  destruct ev;
    try (handlers; cases;
         unfold held_is_live, held_handle, preview_is_data in *; cells;
         rewrite ?formData_goToNextStep; cells; literal;
         repeat match goal with
                | H : cropPreview st = _ |- _ => rewrite H in Hdata
                end;
         (split; [intros h Hh | first [ exact Hdata | exact I ] ]);
         first [ by apply Hlive
               | discriminate Hh
               | done
               | injection Hh as <-; apply elem_of_union; left;
                 by apply elem_of_singleton ]).
  - (* applyCrop installs the preview, a data URL *)
    unfold UploadMediaStep.handle, applyCrop, preview_is_data in *.
    destruct (cropPreview st) as [[h'|r]|] eqn:Hp; [done| |].
    + split; [|by cells]. unfold held_is_live, held_handle. cells. by literal.
    + split; [exact Hlive | by rewrite Hp].
  - (* the effect touches neither the form data nor the URLs *)
    unfold UploadMediaStep.handle, held_is_live, held_handle, preview_is_data.
    by rewrite restoreEditingState_wizard, restoreEditingState_objectURLs,
      restoreEditingState_cropPreview.
Qed.

(** X16. The preview never shows a revoked URL: if the object URL held in
    [mediaUrl] is alive when the step mounts (or none is held), then in every
    state of the session the held object URL is alive, and a pending crop
    preview is a [data:] URL. *)
Theorem held_url_stays_alive w urls st :
  held_is_live (mount w urls) →
  editor_reachable w urls st →
  held_is_live st ∧ preview_is_data st.
Proof.
  intros Hmount Hreach. induction Hreach as [|d ev st _ IH].
  - by split.
  - by apply held_is_live_handle.
Qed.

(** ** The upload step and the wizard's position *)

(** X17. No event of the upload step moves the wizard or completes a step,
    except the text-only shortcut. *)
Theorem upload_events_do_not_navigate d ev st :
  is_text_only_click ev = false →
  currentStep (wizard (handle d ev st)) = currentStep (wizard st)
  ∧ completedSteps (wizard (handle d ev st)) = completedSteps (wizard st).
Proof.
  intros Hev. destruct ev; try discriminate;
    try (handlers; cases; cells; by split).
  unfold UploadMediaStep.handle. by rewrite restoreEditingState_wizard.
Qed.

(** X18. The text-only shortcut satisfies the upload step's validators and
    then moves on as [goToNextStep] does; and [isTextOnly] is never cleared
    again: once it is set, every later event of the step, removing the media
    included, leaves the step valid for [isStepComplete], for the page's
    [validateStep] and for the layout's default check. *)
Theorem text_only_keeps_step_valid d ev st :
  (let st' := createTextOnlyCaption steps st in
   truthy_field (formData (wizard st')) "isTextOnly" = true
   ∧ formData (wizard st') !! "mediaUrl" = Some (VStr "")
   ∧ currentStep (wizard st')
     = currentStep (WizardContext.goToNextStep steps (wizard st))
   ∧ completedSteps (wizard st')
     = completedSteps (WizardContext.goToNextStep steps (wizard st)))
  ∧ (truthy_field (formData (wizard st)) "isTextOnly" = true →
     let fd' := formData (wizard (handle d ev st)) in
     truthy_field fd' "isTextOnly" = true
     ∧ isStepComplete (handle d ev st) = true
     ∧ CaptionGenerator.validateStep 0 fd' = true
     ∧ WizardLayout.defaultValidation 0 fd' = true).
Proof.
  split.
  - unfold createTextOnlyCaption. cells.
    unfold WizardContext.goToNextStep, WizardContext.updateFormData, currentStepId.
    cells. unfold truthy_field.
    destruct (_ <? _); cells; by literal.
  - intros Hset.
    assert (truthy_field (formData (wizard (handle d ev st))) "isTextOnly" = true)
      as Hkept.
    { destruct ev;
        try (handlers; cases; cells; rewrite ?formData_goToNextStep; cells;
             unfold truthy_field in *; by literal).
      unfold UploadMediaStep.handle. by rewrite restoreEditingState_wizard. }
    unfold isStepComplete, CaptionGenerator.validateStep,
      WizardLayout.defaultValidation. simpl.
    rewrite Hkept. by rewrite !orb_true_r.
Qed.

(** ** The log of applied filters *)

Lemma filters_log_applyFilter filterId st :
  let l := field_strs (formData (wizard st)) "filtersApplied" in
  let l' := field_strs (formData (wizard (applyFilter filterId st))) "filtersApplied" in
  (filterId ≠ "none" ∧ (filterId ∉ l) ∧ l' = (l ++ [filterId]))
  ∨ ((filterId = "none" ∨ filterId ∈ l) ∧ l' = l).
Proof.
  unfold applyFilter.
  destruct (String.eqb_spec filterId "none") as [->|Hnone]; cbn [negb andb].
  - right. split; [by left|]. cells. unfold field_strs. by literal.
  - destruct (bool_decide (filterId ∈ _)) eqn:Hin; cbn [negb].
    + apply bool_decide_eq_true in Hin. right. split; [by right|].
      cells. unfold field_strs. by literal.
    + apply bool_decide_eq_false in Hin. left. split; [done|]. split; [done|].
      cells. unfold field_strs at 1. by literal.
Qed.

Lemma setting_the_same_filter filterId st :
  filter st = filterId →
  ({[ "filter" := VStr filterId ]} : gmap string value) ∪ formData (wizard st)
  = formData (wizard st) →
  UploadMediaStep.updateFormData {[ "filter" := VStr filterId ]}
    (setFilter filterId st) = st.
Proof.
  destruct st as [? ? ? ? f' ? ? ? ? ? ? ? ? ? ? ? ? ? ? ? [cur fd done'] ?].
  cells. intros -> Hsame.
  unfold setFilter, UploadMediaStep.updateFormData, setWizard,
    WizardContext.updateFormData.
  cells. by rewrite Hsame.
Qed.

(** X19. Applying a filter records it once: the filter becomes the current
    one in the cell and in the form data; a filter other than "none" is in
    the log afterwards; the log either stays as it is or gains that filter at
    its end, the latter only if it was not there; and applying the same
    filter a second time changes nothing at all. *)
Theorem applyFilter_logs_once filterId st :
  let l := field_strs (formData (wizard st)) "filtersApplied" in
  let st' := applyFilter filterId st in
  let l' := field_strs (formData (wizard st')) "filtersApplied" in
  filter st' = filterId
  ∧ formData (wizard st') !! "filter" = Some (VStr filterId)
  ∧ (filterId ≠ "none" → filterId ∈ l')
  ∧ (l' = l ∨ ((filterId ∉ l) ∧ l' = (l ++ [filterId])))
  ∧ applyFilter filterId st' = st'.
Proof.
  intros l st' l'.
  pose proof (filters_log_applyFilter filterId st) as Hlog.
  fold l st' l' in Hlog.
  assert (filter st' = filterId ∧ formData (wizard st') !! "filter" = Some (VStr filterId))
    as [Hcell Hfield].
  { unfold st', applyFilter. destruct (_ && _); cells; split; by literal. }
  split; [exact Hcell|]. split; [exact Hfield|]. split; [|split].
  - intros Hnone. destruct Hlog as [(_ & _ & ->)|([?|Hin] & ->)]; [|done|done].
    apply elem_of_app. right. by apply list_elem_of_singleton.
  - destruct Hlog as [(_ & Hnotin & ->)|(_ & ->)]; [by right | by left].
  - assert (filterId = "none" ∨ filterId ∈ l') as Hdone.
    { destruct Hlog as [(_ & _ & ->)|(Hor & ->)]; [|done].
      right. apply elem_of_app. right. by apply list_elem_of_singleton. }
    unfold applyFilter at 1. fold l'.
    assert ((negb (String.eqb filterId "none") && negb (bool_decide (filterId ∈ l')))
            = false) as ->.
    { destruct Hdone as [->|Hin]; [done|].
      rewrite (bool_decide_eq_true_2 _ Hin). by rewrite andb_false_r. }
    assert (({[ "filter" := VStr filterId ]} : gmap string value)
              ∪ formData (wizard st') = formData (wizard st')) as Hsame.
    { apply map_eq. intros key. rewrite lookup_patch.
      destruct (decide (key = "filter")) as [->|Hne].
      - by rewrite lookup_singleton_eq.
      - by rewrite lookup_singleton_ne. }
    by apply setting_the_same_filter.
Qed.

Lemma filters_log_ok_handle d ev st :
  filters_log_ok (formData (wizard st)) →
  filters_log_ok (formData (wizard (handle d ev st))).
Proof.
  intros Hlog.
  assert (filters_log_ok (∅ : gmap string value) ∧ NoDup ([] : list string)
          ∧ "none" ∉ ([] : list string)) as (_ & Hnil & Hnone).
  { split; [split|split]; try apply NoDup_nil_2; apply not_elem_of_nil. }
  destruct ev;
    try (handlers; cases; cells; rewrite ?formData_goToNextStep; cells;
         unfold filters_log_ok, field_strs in *; literal;
         first [ exact Hlog | by split ]).
  - (* applyFilter *)
    unfold UploadMediaStep.handle.
    destruct (filters_log_applyFilter filterId st) as [(Hne & Hnotin & E)|(_ & E)];
      unfold filters_log_ok in *; simpl in E; rewrite E; [|done].
    destruct Hlog as [Hnd Hno]. split.
    + apply NoDup_app. split; [done|]. split; [|apply NoDup_singleton].
      intros x Hx Hx'. apply list_elem_of_singleton in Hx'. by subst.
    + intros Hin. apply elem_of_app in Hin as [?|Hin]; [done|].
      apply list_elem_of_singleton in Hin. by subst.
  - (* the effect *)
    unfold UploadMediaStep.handle. by rewrite restoreEditingState_wizard.
Qed.

(** X20. The log of applied filters never holds a filter twice and never
    holds "none": if that is so when the step mounts (no log yet, or one in
    that shape), it is so in every state of the session. *)
Theorem filters_log_stays_clean w urls st :
  filters_log_ok (formData w) →
  editor_reachable w urls st →
  filters_log_ok (formData (wizard st)).
Proof.
  intros Hmount Hreach. induction Hreach as [|d ev st _ IH]; [done|].
  by apply filters_log_ok_handle.
Qed.

(** ** The text overlay stays on the media *)

Lemma in_percent_default : in_percent defaultTextPosition.
Proof. unfold in_percent. simpl. repeat split; discriminate. Qed.

Lemma in_percent_clamped (x y : Q) :
  in_percent (Point (Qmax 0 (Qmin 100 x)) (Qmax 0 (Qmin 100 y))).
Proof.
  assert (∀ v : Q, (0 <= Qmax 0 (Qmin 100 v) ∧ Qmax 0 (Qmin 100 v) <= 100)%Q)
    as Hclamp.
  { intros v. split; [apply Q.le_max_l|].
    apply Q.max_lub; [discriminate | apply Q.le_min_l]. }
  unfold in_percent. simpl.
  destruct (Hclamp x), (Hclamp y). by repeat split.
Qed.

Lemma restoreEditingState_textPosition st :
  position_field_ok (formData (wizard st)) → in_percent (textPosition st) →
  in_percent (textPosition (restoreEditingState st)).
Proof.
  intros Hfield Hcell. unfold restoreEditingState.
  destruct (truthy_field _ _); [|done].
  revert Hfield. generalize (formData (wizard st)). intros fd Hfield.
  assert (∀ s, textPosition (restoreTextRotation fd s) = textPosition s) as ->
    by (intros s; unfold restoreTextRotation; by cases).
  assert (∀ s, in_percent (textPosition s) →
               in_percent (textPosition (restoreTextPosition fd s))) as H4.
  { intros s Hs. unfold restoreTextPosition, position_field_ok in *.
    by destruct (fd !! "textPosition") as [[]|]. }
  apply H4.
  assert (∀ s, textPosition (restoreTextOverlay fd s) = textPosition s) as ->
    by (intros s; unfold restoreTextOverlay; by cases).
  assert (∀ s, textPosition (restoreRotation fd s) = textPosition s) as ->
    by (intros s; unfold restoreRotation; by cases).
  assert (∀ s, textPosition (restoreFilter fd s) = textPosition s) as ->
    by (intros s; unfold restoreFilter; by cases).
  done.
Qed.

Lemma in_percent_handle d ev st :
  in_percent (textPosition st) ∧ position_field_ok (formData (wizard st)) →
  in_percent (textPosition (handle d ev st))
  ∧ position_field_ok (formData (wizard (handle d ev st))).
Proof.
  intros [Hcell Hfield].
  pose proof in_percent_default as Hdefault.
  pose proof in_percent_clamped as Hclamp.
  assert (in_percent (Point 50 90)) as Hbottom by exact in_percent_default.
  destruct ev;
    try (handlers; cases; cells; rewrite ?formData_goToNextStep; cells;
         unfold position_field_ok in *; literal;
         (split; first [ exact Hcell | exact Hfield | exact Hdefault
                       | exact Hbottom | apply Hclamp | exact I ])).
  unfold UploadMediaStep.handle. rewrite restoreEditingState_wizard.
  split; [by apply restoreEditingState_textPosition | done].
Qed.

(** X21. The text overlay cannot be dragged off the media: if the form data
    holds no text position or one within [0, 100] on both axes when the step
    mounts, then in every state of the session the overlay's position, in the
    cell and in the form data, is within [0, 100] on both axes. *)
Theorem text_position_stays_in_percent w urls st :
  position_field_ok (formData w) →
  editor_reachable w urls st →
  in_percent (textPosition st) ∧ position_field_ok (formData (wizard st)).
Proof.
  intros Hmount Hreach. induction Hreach as [|d ev st _ IH].
  - split; [exact in_percent_default | done].
  - by apply in_percent_handle.
Qed.

End EditorInvariants.

(** * The niche step *)

Section NicheStep.

Import WizardContext SelectNicheStep NicheSpec.

Implicit Types (st : State) (w : WizardState).

Lemma isPredefined_not_custom niche : isPredefined niche = true → niche ≠ "custom".
Proof. intros Hpre ->. discriminate Hpre. Qed.

Lemma isPredefined_not_empty niche : isPredefined niche = true → niche ≠ "".
Proof. intros Hpre ->. discriminate Hpre. Qed.

Lemma isPredefined_iff niche :
  isPredefined niche = true ↔ niche ∈ (fst <$> NICHE_OPTIONS).
Proof.
  unfold isPredefined. rewrite existsb_exists. split.
  - intros ([i l] & Hin & Heq). apply String.eqb_eq in Heq. simpl in Heq. subst.
    apply list_elem_of_In in Hin. apply list_elem_of_fmap. by exists (niche, l).
  - intros Hin. apply list_elem_of_fmap in Hin as ([i l] & -> & Hin).
    exists (i, l). split; [by apply list_elem_of_In | apply String.eqb_refl].
Qed.

Lemma niche_sync_restoreSelection st :
  (niche_text (formData (wizard st)) = "" → shown_niche st = "") →
  niche_text (formData (wizard (restoreSelection st))) = shown_niche (restoreSelection st).
Proof.
  intros Hsync. unfold restoreSelection, niche_text in *.
  destruct (formData (wizard st) !! "niche") as [[| | | |niche| | | |]|] eqn:Hn;
    rewrite ?Hn; try (by rewrite Hsync).
  destruct (String.eqb_spec niche "") as [->|Hne]; [by rewrite Hn, Hsync|].
  destruct (isPredefined niche) eqn:Hpre; unfold shown_niche; simpl; rewrite Hn.
  - apply isPredefined_not_custom in Hpre.
    by destruct (String.eqb_spec niche "custom").
  - done.
Qed.

Lemma niche_sync_handle ev st :
  niche_text (formData (wizard st)) = shown_niche st →
  niche_text (formData (wizard (handle ev st))) = shown_niche (handle ev st).
Proof.
  intros Hsync. destruct ev as [nicheId|value|]; simpl.
  - unfold handleNicheSelection, shown_niche, niche_text. simpl.
    destruct (String.eqb nicheId "custom"); simpl;
      by rewrite lookup_union_Some_l with (x := VStr _)
        by apply lookup_singleton_eq.
  - unfold handleCustomNicheChange, shown_niche, niche_text in *. simpl.
    destruct (String.eqb (selectedNiche st) "custom"); simpl; [|done].
    by rewrite lookup_union_Some_l with (x := VStr value)
      by apply lookup_singleton_eq.
  - apply niche_sync_restoreSelection. by rewrite Hsync.
Qed.

Lemma restoreSelection_wizard st : wizard (restoreSelection st) = wizard st.
Proof.
  unfold restoreSelection.
  destruct (formData (wizard st) !! "niche") as [[| | | |niche| | | |]|]; try done.
  destruct (String.eqb niche ""); [done|]. by destruct (isPredefined niche).
Qed.

Lemma niche_is_text_handle ev st :
  niche_is_text (formData (wizard st)) = true →
  niche_is_text (formData (wizard (handle ev st))) = true.
Proof.
  intros Htext. destruct ev as [nicheId|value|]; simpl.
  - unfold handleNicheSelection, niche_is_text. simpl.
    destruct (String.eqb nicheId "custom"); simpl;
      by rewrite lookup_union_Some_l with (x := VStr _)
        by apply lookup_singleton_eq.
  - unfold handleCustomNicheChange, niche_is_text in *. simpl.
    destruct (String.eqb (selectedNiche st) "custom"); simpl; [|done].
    by rewrite lookup_union_Some_l with (x := VStr value)
      by apply lookup_singleton_eq.
  - by rewrite restoreSelection_wizard.
Qed.

(** X22. The niche step and the form data agree: when the step is mounted
    over form data whose niche is a string or missing, then in every state
    of the step the niche in the form data is still a string or missing, and
    it is the niche the step shows as chosen: the custom text when the custom
    card is selected and the selected card otherwise. *)
Theorem niche_matches_selection w st :
  niche_is_text (formData w) = true →
  niche_reachable w st →
  niche_is_text (formData (wizard st)) = true
  ∧ niche_text (formData (wizard st)) = shown_niche st.
Proof.
  intros Htext Hreach. induction Hreach as [|ev st _ [IHtext IHsync]].
  - split.
    + unfold mount. by rewrite restoreSelection_wizard.
    + unfold mount. by apply niche_sync_restoreSelection.
  - split; [by apply niche_is_text_handle | by apply niche_sync_handle].
Qed.

(** X23. A predefined niche survives leaving the step: after the card of a
    listed niche is selected, the page's validator accepts step 1, and
    mounting the step again over the resulting form data selects that card
    and leaves the custom text empty. *)
Theorem predefined_niche_round_trip nicheId st :
  nicheId ∈ (fst <$> NICHE_OPTIONS) →
  let w' := wizard (handleNicheSelection nicheId st) in
  formData w' !! "niche" = Some (VStr nicheId)
  ∧ CaptionGenerator.validateStep 1 (formData w') = true
  ∧ mount w' = {| customNiche := ""; selectedNiche := nicheId; wizard := w' |}.
Proof.
  intros Hin. apply isPredefined_iff in Hin.
  pose proof (isPredefined_not_custom _ Hin) as Hcustom.
  pose proof (isPredefined_not_empty _ Hin) as Hempty.
  unfold handleNicheSelection. simpl.
  destruct (String.eqb_spec nicheId "custom") as [?|_]; [done|].
  assert (formData (updateFormData {["niche" := VStr nicheId]} (wizard st)) !! "niche"
          = Some (VStr nicheId)) as Hn
    by (simpl; apply lookup_union_Some_l, lookup_singleton_eq).
  split; [exact Hn|]. split.
  - unfold CaptionGenerator.validateStep, truthy_field. simpl in *. rewrite Hn.
    simpl. by destruct (String.eqb_spec nicheId "").
  - unfold mount, restoreSelection. cbn [wizard customNiche selectedNiche].
    rewrite Hn, Hin. by destruct (String.eqb_spec nicheId "").
Qed.

(** X24. A custom niche survives too, unless it spells a listed id: with
    the custom card selected, typing a text stores it as the niche, and the
    validator accepts step 1 exactly when the text is not empty. When the
    effect then runs on a non-empty text, the custom card stays selected if
    the text is not the id of a listed niche, and otherwise the selection
    moves to that niche's card; on the next mount the text comes back under
    the custom card in the first case, and as the listed card with an empty
    custom text in the second. *)
Theorem custom_niche_round_trip value st :
  selectedNiche st = "custom" →
  let w' := wizard (handleCustomNicheChange value st) in
  formData w' !! "niche" = Some (VStr value)
  ∧ CaptionGenerator.validateStep 1 (formData w') = negb (String.eqb value "")
  ∧ (value ≠ "" →
     restoreSelection (handleCustomNicheChange value st)
     = {| customNiche := value;
          selectedNiche := if isPredefined value then value else "custom";
          wizard := w' |}
     ∧ mount w'
       = if isPredefined value
         then {| customNiche := ""; selectedNiche := value; wizard := w' |}
         else {| customNiche := value; selectedNiche := "custom"; wizard := w' |}).
Proof.
  intros Hsel. unfold handleCustomNicheChange. rewrite Hsel. simpl.
  assert (formData (updateFormData {["niche" := VStr value]} (wizard st)) !! "niche"
          = Some (VStr value)) as Hn
    by (simpl; apply lookup_union_Some_l, lookup_singleton_eq).
  split; [exact Hn|]. split.
  - unfold CaptionGenerator.validateStep, truthy_field. simpl in *. by rewrite Hn.
  - intros Hne. unfold mount, restoreSelection. cbn [wizard customNiche selectedNiche].
    rewrite Hn. destruct (String.eqb_spec value "") as [?|_]; [done|].
    by destruct (isPredefined value).
Qed.

(** X25. The layout's default check for step 1 reads [nicheInput] and
    [nicheSelected]; this version of the niche step writes neither, so none
    of its events changes the verdict of the default check: a layout without
    the host's validator does not let the user past the niche step because of
    anything done in it. *)
Theorem niche_events_miss_default_validation ev st :
  WizardLayout.defaultValidation 1 (formData (wizard (handle ev st)))
  = WizardLayout.defaultValidation 1 (formData (wizard st)).
Proof.
  assert (∀ (v : value) fd,
            WizardLayout.defaultValidation 1 ({["niche" := v]} ∪ fd)
            = WizardLayout.defaultValidation 1 fd) as Hmiss.
  { intros v fd. unfold WizardLayout.defaultValidation, truthy_field. simpl.
    rewrite !lookup_patch.
    by rewrite !lookup_singleton_ne by discriminate. }
  destruct ev as [nicheId|value|]; simpl.
  - unfold handleNicheSelection. simpl.
    destruct (String.eqb nicheId "custom"); apply Hmiss.
  - unfold handleCustomNicheChange. simpl.
    destruct (String.eqb (selectedNiche st) "custom"); [apply Hmiss | done].
  - by rewrite restoreSelection_wizard.
Qed.

End NicheStep.

(** * The niche step, version 1.2.0 *)

Section NicheStep12.

Import WizardContext SelectNicheStep12 NicheSpec12.

Implicit Types (st : State) (w : WizardState) (fd : gmap string value).

Local Ltac fields :=
  unfold fields_are_text, text_field, WizardLayout.defaultValidation, truthy_field;
  cbn [forallb wizard formData updateFormData customNiche selectedNicheId
       isCustomized error Z.eqb Pos.eqb andb];
  rewrite ?lookup_patch;
  repeat first
    [ rewrite lookup_insert_eq
    | rewrite lookup_insert_ne by discriminate
    | rewrite lookup_singleton_eq
    | rewrite lookup_singleton_ne by discriminate ];
  cbv beta iota.

Lemma find_niche_id nicheId niche :
  find_niche nicheId = Some niche → fst niche = nicheId ∧ niche ∈ NICHE_OPTIONS.
Proof.
  intros Hfind. apply find_some in Hfind as [Hin Heq].
  apply String.eqb_eq in Heq. split; [done | by apply list_elem_of_In].
Qed.

Lemma find_niche_listed niche :
  niche ∈ NICHE_OPTIONS → is_Some (find_niche (fst niche)).
Proof.
  intros Hin. destruct (find_niche (fst niche)) as [found|] eqn:Hfind; [by eexists|].
  apply list_elem_of_In in Hin.
  pose proof (find_none _ _ Hfind _ Hin) as Hne. simpl in Hne.
  by rewrite String.eqb_refl in Hne.
Qed.

Lemma selection_is_listed_find nicheId :
  selection_is_listed nicheId = true → nicheId ≠ "" →
  ∃ niche, find_niche nicheId = Some niche.
Proof.
  unfold selection_is_listed. intros Hlisted Hne.
  apply orb_true_iff in Hlisted as [Heq|Hsome].
  - by apply String.eqb_eq in Heq.
  - by apply bool_decide_eq_true in Hsome as [niche ?]; exists niche.
Qed.

Lemma restoreSelection_wizard12 st : wizard (restoreSelection st) = wizard st.
Proof.
  unfold restoreSelection.
  repeat match goal with
         | |- context [if ?b then _ else _] => destruct b
         | |- context [match ?x with _ => _ end] => destruct x
         end; reflexivity.
Qed.

Lemma restoreSelection_selection st :
  text_field (formData (wizard st)) "nicheSelected" = "" → selectedNicheId st = "" →
  selectedNicheId (restoreSelection st) = "".
Proof.
  intros Hfield Hsel. unfold restoreSelection. rewrite Hfield. simpl.
  by destruct (negb _).
Qed.

Lemma restoreSelection_selected st :
  text_field (formData (wizard st)) "nicheSelected" ≠ "" →
  selectedNicheId (restoreSelection st)
  = text_field (formData (wizard st)) "nicheSelected".
Proof.
  intros Hfield. unfold restoreSelection.
  destruct (String.eqb_spec (text_field (formData (wizard st)) "nicheSelected") "")
    as [?|_]; [done|]. simpl.
  destruct (find_niche _); [|done]. by destruct (_ && _).
Qed.

Lemma selection_in_sync_restoreSelection st :
  fields_are_text (formData (wizard st)) = true →
  selection_is_listed (text_field (formData (wizard st)) "nicheSelected") = true →
  (text_field (formData (wizard st)) "nicheSelected" = "" → selectedNicheId st = "") →
  selection_in_sync (restoreSelection st).
Proof.
  intros Htext Hlisted Hsel. unfold selection_in_sync.
  rewrite restoreSelection_wizard12. split; [done|].
  destruct (String.eqb_spec (text_field (formData (wizard st)) "nicheSelected") "")
    as [Hempty|Hfull].
  - rewrite restoreSelection_selection by auto. by rewrite Hempty.
  - by rewrite restoreSelection_selected.
Qed.

Lemma selection_in_sync_handle ev st st' :
  (∀ niche, ev = ClickNiche niche → niche ∈ NICHE_OPTIONS) →
  selection_in_sync st → handle ev st = Returned st' → selection_in_sync st'.
Proof.
  intros Hcard (Htext & Hfield & Hlisted) Hev.
  destruct ev as [value|niche| |]; simpl in Hev.
  - unfold handleCustomNicheChange in Hev.
    destruct (String.length value <=? 100)%nat; [|by injection Hev as <-].
    destruct (String.eqb_spec (selectedNicheId st) "") as [Hempty|Hfull]; simpl in Hev.
    + injection Hev as <-. unfold selection_in_sync. fields. by rewrite Hempty.
    + destruct (find_niche (selectedNicheId st)); [|done].
      injection Hev as <-. unfold selection_in_sync. by fields.
  - injection Hev as <-. unfold selection_in_sync, handleNicheSelect. fields.
    split; [done|]. split; [done|]. unfold selection_is_listed.
    apply orb_true_iff. right. apply bool_decide_eq_true.
    apply find_niche_listed. by apply Hcard.
  - injection Hev as <-. unfold selection_in_sync, clearSelection. by fields.
  - injection Hev as <-. apply selection_in_sync_restoreSelection.
    + done.
    + by rewrite Hfield.
    + by rewrite Hfield.
Qed.

Lemma selection_in_sync_reachable w st :
  fields_are_text (formData w) = true →
  selection_is_listed (text_field (formData w) "nicheSelected") = true →
  niche_reachable w st → selection_in_sync st.
Proof.
  intros Htext Hlisted Hreach. induction Hreach as [|ev st st' _ IH Hcard Hev].
  - unfold mount. by apply selection_in_sync_restoreSelection.
  - by eapply selection_in_sync_handle.
Qed.

(** X26. Typing into the niche field never throws in a mounted step of
    version 1.2.0: when the form data the step is mounted over holds strings
    for [nicheSelected] and [nicheInput] (or lacks them) and its
    [nicheSelected] is empty or the id of a listed niche, then in every state
    the step reaches the selected id equals the form data's [nicheSelected],
    it is empty or listed, and the change handler returns for every text. *)
Theorem typing_never_throws w st value :
  fields_are_text (formData w) = true →
  selection_is_listed (text_field (formData w) "nicheSelected") = true →
  niche_reachable w st →
  selection_in_sync st
  ∧ ∃ st', handleCustomNicheChange value st = Returned st'.
Proof.
  intros Htext Hlisted Hreach.
  pose proof (selection_in_sync_reachable _ _ Htext Hlisted Hreach) as Hsync.
  split; [done|]. destruct Hsync as (_ & _ & Hsel).
  unfold handleCustomNicheChange.
  destruct (String.length value <=? 100)%nat; [|by eexists].
  destruct (String.eqb_spec (selectedNicheId st) "") as [Hempty|Hfull]; simpl;
    [by eexists|].
  destruct (selection_is_listed_find _ Hsel Hfull) as [niche ->]. by eexists.
Qed.

(** X27. The same handler does throw after a mount over an unlisted
    selection: when the form data's [nicheSelected] is a non-empty string
    that is the id of no listed niche, the effect selects it all the same,
    and typing any text of at most 100 characters then reads [label] of
    [undefined]. *)
Theorem unlisted_selection_makes_typing_throw w nicheId value :
  formData w !! "nicheSelected" = Some (VStr nicheId) →
  nicheId ≠ "" →
  find_niche nicheId = None →
  (String.length value ≤ 100)%nat →
  selectedNicheId (mount w) = nicheId
  ∧ handleCustomNicheChange value (mount w) = Thrown "TypeError".
Proof.
  intros Hfield Hne Hfind Hlen.
  assert (selectedNicheId (mount w) = nicheId) as Hsel.
  { unfold mount. rewrite restoreSelection_selected;
      unfold text_field; cbn [wizard]; by rewrite Hfield. }
  split; [done|]. unfold handleCustomNicheChange. rewrite Hsel, Hfind.
  destruct (Nat.leb_spec (String.length value) 100) as [_|?]; [|lia].
  by destruct (String.eqb_spec nicheId "").
Qed.

(** X28. The handlers of version 1.2.0 feed the layout's default check: after
    a click on a card or on the clear button, or after typing a text within
    the limit, the form data's [nicheInput] and [niche] are the text shown in
    the field, its [nicheSelected] is the selected id, and the default check
    accepts step 1 exactly when the text or the selection is not empty. *)
Theorem niche_handlers_feed_default_validation ev st st' :
  writes_form_data ev = true →
  handle ev st = Returned st' →
  text_field (formData (wizard st')) "nicheInput" = customNiche st'
  ∧ text_field (formData (wizard st')) "niche" = customNiche st'
  ∧ text_field (formData (wizard st')) "nicheSelected" = selectedNicheId st'
  ∧ WizardLayout.defaultValidation 1 (formData (wizard st'))
    = negb (String.eqb (customNiche st') "")
      || negb (String.eqb (selectedNicheId st') "").
Proof.
  intros Hwrites Hev. destruct ev as [value|niche| |]; simpl in *; [| | |done].
  - unfold handleCustomNicheChange in Hev. rewrite Hwrites in Hev.
    destruct (String.eqb_spec (selectedNicheId st) "") as [Hempty|Hfull]; simpl in Hev.
    + injection Hev as <-. fields. rewrite Hempty. simpl.
      by rewrite orb_false_r.
    + destruct (find_niche (selectedNicheId st)); [|done].
      injection Hev as <-. by fields.
  - injection Hev as <-. unfold handleNicheSelect. by fields.
  - injection Hev as <-. unfold clearSelection. by fields.
Qed.

(** X29. With a listed card selected the text cannot be cleared: typing a
    text within the limit stores it as [nicheInput], but the effect that
    follows shows the typed text only when it is not empty; for the empty
    text it puts the card's label back into the field, while [nicheInput]
    stays empty. The step is marked as customized exactly when the text is
    neither empty nor the label. *)
Theorem effect_refills_cleared_text value niche st :
  selectedNicheId st ≠ "" →
  find_niche (selectedNicheId st) = Some niche →
  (String.length value ≤ 100)%nat →
  ∃ st',
    handleCustomNicheChange value st = Returned st'
    ∧ text_field (formData (wizard st')) "nicheInput" = value
    ∧ customNiche (restoreSelection st')
      = (if String.eqb value "" then snd niche else value)
    ∧ isCustomized (restoreSelection st')
      = negb (String.eqb value "") && negb (String.eqb value (snd niche)).
Proof.
  intros Hsel Hfind Hlen. unfold handleCustomNicheChange. rewrite Hfind.
  destruct (Nat.leb_spec (String.length value) 100) as [_|?]; [|lia].
  destruct (String.eqb_spec (selectedNicheId st) "") as [?|_]; [done|]. simpl.
  eexists. split; [reflexivity|]. split; [by fields|].
  unfold restoreSelection. fields.
  destruct (String.eqb_spec (selectedNicheId st) "") as [?|_]; [done|]. simpl.
  rewrite Hfind.
  destruct (String.eqb_spec value ""), (String.eqb_spec value (snd niche)); by simpl.
Qed.

End NicheStep12.

(** * The properties above on sample runs *)

Section SampleRuns.

Import WizardContext WizardSpec RunSpec CaptionGenerator Samples.

(** Step 0, completed by the first step forward, is still completed after
    wandering about. *)
Lemma completed_stays_completed_witness :
  no_reset wander = true
  ∧ isStepCompleted WIZARD_STEPS second_step 0 = true
  ∧ isStepCompleted WIZARD_STEPS (run WIZARD_STEPS wander second_step) 0 = true.
Proof.
  split; [reflexivity|]. split; [reflexivity|].
  apply (completed_stays_completed WIZARD_STEPS wander second_step 0); reflexivity.
Defined.

Lemma navigation_ignores_formData_witness :
  let d : gmap string value := {[ "niche" := VStr "travel" ]} in
  is_navigation GoToNextStep = true
  ∧ perform WIZARD_STEPS GoToNextStep (updateFormData d second_step)
    = updateFormData d (perform WIZARD_STEPS GoToNextStep second_step)
  ∧ formData (perform WIZARD_STEPS GoToNextStep second_step) = formData second_step.
Proof.
  intros d. split; [reflexivity|].
  apply (navigation_ignores_formData WIZARD_STEPS GoToNextStep d second_step).
  reflexivity.
Defined.

Lemma inherited_steps_distinct : NoDup (step_ids inherited_steps).
Proof. apply (bool_decide_unpack _). by vm_compute. Qed.

Lemma inherited_last_step : inherited inherited_steps 2.
Proof. unfold inherited. apply (bool_decide_unpack _). by vm_compute. Qed.

Lemma own_last_step : ¬ inherited WIZARD_STEPS (totalSteps WIZARD_STEPS - 1).
Proof. unfold inherited. apply (bool_decide_unpack _). by vm_compute. Qed.

(** After two steps forward steps 0 and 1 are completed and the last step is
    not; over a list that ends in "constructor" the last step is reported
    completed from the mount on. *)
Lemma steps_behind_are_completed_witness :
  currentStep third_step = 2
  ∧ isStepCompleted WIZARD_STEPS third_step 0 = true
  ∧ isStepCompleted WIZARD_STEPS third_step 1 = true
  ∧ isStepCompleted WIZARD_STEPS third_step (totalSteps WIZARD_STEPS - 1) = false
  ∧ isStepCompleted inherited_steps (initialState ∅) 2 = true.
Proof.
  assert (currentStep third_step = 2) as Hcur by reflexivity.
  destruct (steps_behind_are_completed WIZARD_STEPS initialData third_step
              WIZARD_STEPS_distinct
              (reachable_from_mount [GoToNextStep; GoToNextStep]))
    as (Hbehind & _ & Hlast).
  destruct (steps_behind_are_completed inherited_steps ∅ (initialState ∅)
              inherited_steps_distinct (reachable_mount _ _))
    as (_ & Hreported & _).
  split; [exact Hcur|].
  split; [apply Hbehind; rewrite Hcur; lia|].
  split; [apply Hbehind; rewrite Hcur; lia|].
  split; [apply Hlast; [discriminate | exact own_last_step]|].
  apply Hreported; [unfold totalSteps; simpl; lia|].
  right. exact inherited_last_step.
Defined.

Lemma isStepCompleted_out_of_range_witness :
  isStepCompleted WIZARD_STEPS third_step 7 = false
  ∧ isStepCompleted WIZARD_STEPS third_step (-1) = false.
Proof.
  assert ("undefined" ∉ step_ids WIZARD_STEPS) as Hname
    by (apply (bool_decide_unpack _); by vm_compute).
  split.
  - apply (isStepCompleted_out_of_range WIZARD_STEPS initialData third_step 7
             WIZARD_STEPS_distinct Hname
             (reachable_from_mount [GoToNextStep; GoToNextStep])).
    right. unfold totalSteps. simpl. lia.
  - apply (isStepCompleted_out_of_range WIZARD_STEPS initialData third_step (-1)
             WIZARD_STEPS_distinct Hname
             (reachable_from_mount [GoToNextStep; GoToNextStep])).
    left. lia.
Defined.

Lemma indicator_click_is_goToStep_witness :
  StepIndicator.onClick WIZARD_STEPS 1 third_step = goToStep WIZARD_STEPS 1 third_step
  ∧ StepIndicator.canClick WIZARD_STEPS third_step 2 = true
  ∧ StepIndicator.canClick inherited_steps (initialState ∅) 2 = true
  ∧ StepIndicator.onClick inherited_steps 2 (initialState ∅) = initialState ∅.
Proof.
  assert (keys_length (completedSteps third_step) = 2) as Hkeys by reflexivity.
  pose proof (reachable_from_mount [GoToNextStep; GoToNextStep]) as Hreach.
  assert (∀ index, 0 ≤ index < 5 → 0 ≤ index < totalSteps WIZARD_STEPS) as Hin
    by (intros index ?; unfold totalSteps; simpl; lia).
  destruct (indicator_click_is_goToStep WIZARD_STEPS initialData third_step 1
              WIZARD_STEPS_distinct Hreach) as (Hsame & _ & _); [apply Hin; lia|].
  destruct (indicator_click_is_goToStep WIZARD_STEPS initialData third_step 2
              WIZARD_STEPS_distinct Hreach) as (_ & Hnext & _); [apply Hin; lia|].
  destruct (indicator_click_is_goToStep inherited_steps ∅ (initialState ∅) 2
              inherited_steps_distinct (reachable_mount _ _))
    as (_ & Henabled & _ & Hidle); [unfold totalSteps; simpl; lia|].
  rewrite Hkeys in Hnext.
  split; [exact Hsame|]. split; [apply Hnext; left; lia|].
  split; [apply Henabled; right; exact inherited_last_step|].
  apply Hidle. unfold keys_length. simpl. rewrite map_size_empty. lia.
Defined.

(** On the first render nothing is uploaded: the page's validator rejects
    step 0 and a click on Next changes nothing. *)
Lemma clickNext_is_gated_witness :
  let s := initialState initialData in
  WizardLayout.canProceed (Some validateStep) s = false
  ∧ WizardLayout.clickNext WIZARD_STEPS (Some validateStep) true s = (s, None).
Proof.
  intros s. split; [reflexivity|].
  apply (clickNext_is_gated WIZARD_STEPS (Some validateStep) true s).
  - unfold totalSteps. simpl. lia.
  - reflexivity.
Defined.

Lemma ActiveStepContent_found_witness :
  ∃ step, CaptionGeneratorPage.ActiveStepContent WIZARD_STEPS third_step = Some step
          ∧ currentStepId WIZARD_STEPS third_step = Some (id step).
Proof.
  apply (ActiveStepContent_found WIZARD_STEPS initialData third_step).
  - discriminate.
  - apply (reachable_from_mount [GoToNextStep; GoToNextStep]).
Defined.

End SampleRuns.

Section SampleEdits.

Import WizardContext UploadMediaStep EditorSpec SessionSpec CaptionGenerator
       Scenario Samples.

Local Abbreviation no_urls := {| live := ∅; next_handle := 0 |}.

(** A PDF is turned away with a message. *)
Lemma handleFileSelection_rejects_witness :
(file_type leaflet ∉ supportedTypes)
  ∧ ∃ msg, msg ≠ "" ∧ handleFileSelection leaflet fresh = setError msg fresh.
Proof.
  assert (file_type leaflet ∉ supportedTypes) as Htype
    by (apply (bool_decide_unpack _); by vm_compute).
  split; [exact Htype|].
  apply (handleFileSelection_rejects leaflet fresh). by left.
Defined.

(** The photo is taken in under the first handle. *)
Lemma handleFileSelection_accepts_witness :
  let st' := handleFileSelection photo fresh in
  formData (wizard st') !! "mediaUrl" = Some (VUrl (ObjectURL 0))
  ∧ formData (wizard st') !! "mediaType" = Some (VStr "image")
  ∧ formData (wizard st') !! "niche" = Some (VStr "")
  ∧ showEditor st' = true.
Proof.
  assert (file_type photo ∈ supportedTypes) as Htype
    by (apply (bool_decide_unpack _); by vm_compute).
  assert (file_size photo ≤ MAX_FILE_SIZE) as Hsize
    by (unfold MAX_FILE_SIZE; simpl; lia).
  destruct (handleFileSelection_accepts photo fresh Htype Hsize)
    as (Hurl & _ & Htype' & _ & _ & Hshown & _ & _ & _ & _ & _ & _ & Hrest & _).
  intros st'. split; [exact Hurl|]. split; [exact Htype'|].
  split; [|exact Hshown].
  subst st'. rewrite Hrest; [reflexivity|].
  apply (bool_decide_unpack _). by vm_compute.
Defined.


(** The sepia photo, turned once and captioned, comes back after the edits
    are saved and the step is mounted again. *)
Lemma saved_edits_survive_remount_witness :
  let st' := restoreEditingState (mount (wizard (saveEdits edited)) no_urls) in
  filter edited = "sepia" ∧ rotation edited = 90 ∧ textOverlay edited = "sunset"
  ∧ same_edits edited st' ∧ showEditor st' = true.
Proof.
  assert (filter edited = "sepia") as Hfilter by reflexivity.
  intros st'. split; [exact Hfilter|]. split; [reflexivity|]. split; [reflexivity|].
  apply (saved_edits_survive_remount edited no_urls); [reflexivity|].
  rewrite Hfilter. discriminate.
Defined.

Lemma rotateMedia_directions_cancel_witness :
  rotation turned = 270
  ∧ rotation (rotateMedia "counter-clockwise" (rotateMedia "clockwise" turned)) = 270
  ∧ rotation (rotateMedia "clockwise" (rotateMedia "counter-clockwise" turned)) = 270.
Proof.
  assert (rotation turned = 270) as Hturned by reflexivity.
  destruct (rotateMedia_directions_cancel "counter-clockwise" turned) as [Hback Hforth].
  { unfold normalized. rewrite Hturned. lia. }
  { discriminate. }
  split; [exact Hturned|]. split; [rewrite Hback | rewrite Hforth]; exact Hturned.
Defined.

(** While the crop of the photo is being dragged, the photo's object URL is
    alive and no preview is pending. *)
Lemma held_url_stays_alive_witness :
  held_handle crop_dragged = Some 0%nat
  ∧ held_is_live crop_dragged ∧ preview_is_data crop_dragged.
Proof.
  split; [reflexivity|].
  apply (held_url_stays_alive WIZARD_STEPS atan2_flat pi_approx
           (initialState initialData) no_urls crop_dragged).
  - intros h Hheld. discriminate Hheld.
  - apply editor_reachable_play, editor_reachable_selected.
Defined.

(** Removing the photo leaves the wizard on the upload step. *)
Lemma upload_events_do_not_navigate_witness :
  let st' := handle WIZARD_STEPS atan2_flat pi_approx page ClickRemove selected in
  currentStep (wizard st') = 0 ∧ completedSteps (wizard st') = ∅.
Proof.
  destruct (upload_events_do_not_navigate WIZARD_STEPS atan2_flat pi_approx
              page ClickRemove selected eq_refl) as [Hstep Hdone].
  intros st'. subst st'. split; [rewrite Hstep | rewrite Hdone]; reflexivity.
Defined.

(** Sepia, none, sepia: the log holds sepia once. *)
Lemma filters_log_stays_clean_witness :
  field_strs (formData (wizard filtered)) "filtersApplied" = ["sepia"]
  ∧ filters_log_ok (formData (wizard filtered)).
Proof.
  split; [reflexivity|].
  apply (filters_log_stays_clean WIZARD_STEPS atan2_flat pi_approx
           (initialState initialData) no_urls filtered).
  - split; [apply NoDup_nil_2 | apply not_elem_of_nil].
  - apply editor_reachable_play, editor_reachable_selected.
Defined.

(** Dragged far out to the upper right, the text stops at the corner. *)
Lemma text_position_stays_in_percent_witness :
  in_percent (textPosition dragged_out)
  ∧ position_field_ok (formData (wizard dragged_out)).
Proof.
  apply (text_position_stays_in_percent WIZARD_STEPS atan2_flat pi_approx
           (initialState initialData) no_urls dragged_out).
  - exact I.
  - apply editor_reachable_play, editor_reachable_selected.
Defined.

End SampleEdits.

Section SampleNiches.

Import WizardContext CaptionGenerator SelectNicheStep NicheSpec NicheSamples.

(** "pets" typed under the custom card is the niche of the form data. *)
Lemma niche_matches_selection_witness :
  shown_niche pets = "pets"
  ∧ niche_is_text (formData (wizard pets)) = true
  ∧ niche_text (formData (wizard pets)) = shown_niche pets.
Proof.
  split; [reflexivity|].
  apply (niche_matches_selection (initialState initialData) pets); [reflexivity|].
  do 2 constructor. constructor.
Defined.

Lemma predefined_niche_round_trip_witness :
  let w' := wizard (handleNicheSelection "travel" blank) in
  validateStep 1 (formData w') = true
  ∧ selectedNiche (mount w') = "travel".
Proof.
  destruct (predefined_niche_round_trip "travel" blank) as (_ & Hvalid & Hmount).
  { apply (bool_decide_unpack _). by vm_compute. }
  intros w'. subst w'. split; [exact Hvalid|]. by rewrite Hmount.
Defined.

(** "art" typed under the custom card comes back as the Art & Design card. *)
Lemma custom_niche_round_trip_witness :
  let w' := wizard (handleCustomNicheChange "art" custom_card) in
  selectedNiche custom_card = "custom"
  ∧ validateStep 1 (formData w') = true
  ∧ selectedNiche (restoreSelection (handleCustomNicheChange "art" custom_card)) = "art"
  ∧ mount w' = {| customNiche := ""; selectedNiche := "art"; wizard := w' |}.
Proof.
  assert (selectedNiche custom_card = "custom") as Hcustom by reflexivity.
  destruct (custom_niche_round_trip "art" custom_card Hcustom)
    as (_ & Hvalid & Hback).
  destruct Hback as [Hplace Hmount]; [discriminate|].
  intros w'. subst w'. split; [exact Hcustom|]. split; [exact Hvalid|].
  split; [by rewrite Hplace | exact Hmount].
Defined.

End SampleNiches.

Section SampleNiches12.

Import WizardContext SelectNicheStep12 NicheSpec12 NicheSamples12.

Lemma travel_is_listed : travel ∈ NICHE_OPTIONS.
Proof. apply (bool_decide_unpack _). by vm_compute. Qed.

Lemma travel_card_reachable : niche_reachable (initialState ∅) travel_card.
Proof.
  apply (niche_handled _ (ClickNiche travel) blank); [constructor | | reflexivity].
  intros niche [= <-]. apply travel_is_listed.
Qed.

(** With the travel card selected, typing returns. *)
Lemma typing_never_throws_witness :
  selectedNicheId travel_card = "travel"
  ∧ selection_in_sync travel_card
  ∧ ∃ st', handleCustomNicheChange "Travel on a budget" travel_card = Returned st'.
Proof.
  split; [reflexivity|].
  apply (typing_never_throws (initialState ∅) travel_card "Travel on a budget");
    [reflexivity | reflexivity | apply travel_card_reachable].
Defined.

(** A form that carries the id "tech" makes the first keystroke throw. *)
Lemma unlisted_selection_makes_typing_throw_witness :
  selectedNicheId (mount stale_form) = "tech"
  ∧ handleCustomNicheChange "t" (mount stale_form) = Thrown "TypeError".
Proof.
  apply (unlisted_selection_makes_typing_throw stale_form "tech" "t");
    [reflexivity | discriminate | reflexivity | simpl; lia].
Defined.

(** After the clear button the default check rejects step 1. *)
Lemma niche_handlers_feed_default_validation_witness :
  let st' := clearSelection travel_card in
  customNiche st' = "" ∧ selectedNicheId st' = ""
  ∧ WizardLayout.defaultValidation 1 (formData (wizard st')) = false.
Proof.
  destruct (niche_handlers_feed_default_validation ClickClear travel_card
              (clearSelection travel_card) eq_refl eq_refl) as (_ & _ & _ & Hcheck).
  intros st'. subst st'. split; [reflexivity|]. split; [reflexivity|].
  rewrite Hcheck. reflexivity.
Defined.

(** Deleting the text under the travel card brings "Travel" back. *)
Lemma effect_refills_cleared_text_witness :
  ∃ st',
    handleCustomNicheChange "" travel_card = Returned st'
    ∧ text_field (formData (wizard st')) "nicheInput" = ""
    ∧ customNiche (restoreSelection st') = "Travel"
    ∧ isCustomized (restoreSelection st') = false.
Proof.
  apply (effect_refills_cleared_text "" travel travel_card);
    [discriminate | reflexivity | simpl; lia].
Defined.

End SampleNiches12.
